(** * The preemptible watchdog (examples/preemptible_watchdog.py)

    A shallow embedding of the reconciliation core of the watchdog: the two
    target selectors ([get_instances_from_config],
    [get_instances_from_yc_folder]), the status aggregator
    ([prep_and_log_statistics]), the dispatcher ([start_instance],
    [prepare_start_tasks]) and the driver ([main]).

    Python state is passed explicitly: the mutable list [config.instances],
    the global [last_status_stats] and the state of the thread's asyncio
    event loop form the record [State].  Calls to the cloud client, calls to
    the logger, list mutations and sleeps are recorded in a trace.

    The [while True] loop is modelled by its first [n] iterations, for every
    [n].  The signal handler, which ends the process from outside at any
    point, is not part of the model; neither are argument parsing, the
    configuration file and the logging sink. *)

From Stdlib Require Import Ascii.
From stdpp Require Import gmap strings list pretty.

(** ** Python values *)

(** Python's truth test on a list: an empty list is falsy. *)
Definition list_truthy {A} (l : list A) : bool :=
  match l with [] => false | _ :: _ => true end.

(** Python's truth test on an attribute holding [None] or a [str]: [None]
    and the empty string are falsy. *)
Definition truthy (v : option string) : bool :=
  match v with
  | None => false
  | Some EmptyString => false
  | Some (String _ _) => true
  end.

(** A Python [dict] with [str] keys.  Since Python 3.7 a dict iterates in
    insertion order and assigning to a key that is present keeps the key's
    position; both are visible here ([str(dict)], [dict.values()]), so the
    dict is the list of its items in that order. *)
Module PyDict.
Section dict.
Context {V : Type}.

(** [d.get(k)] *)
Fixpoint get (k : string) (d : list (string * V)) : option V :=
  match d with
  | [] => None
  | (k', v) :: d' => if decide (k = k') then Some v else get k d'
  end.

(** [d[k] = v] *)
Fixpoint set (k : string) (v : V) (d : list (string * V))
  : list (string * V) :=
  match d with
  | [] => [(k, v)]
  | (k', v') :: d' =>
      if decide (k = k') then (k', v) :: d' else (k', v') :: set k v d'
  end.

(** [d.keys()], [d.values()] *)
Definition keys (d : list (string * V)) : list string := d.*1.
Definition values (d : list (string * V)) : list V := d.*2.

(** [dict(pairs)]: the pairs are assigned from left to right. *)
Definition of_pairs (l : list (string * V)) : list (string * V) :=
  foldl (λ d kv, set kv.1 kv.2 d) [] l.
End dict.
End PyDict.

(** ** [repr] and [str] *)

Module PyRepr.
Definition squote : ascii := ascii_of_nat 39.
Definition dquote : ascii := ascii_of_nat 34.
Definition backslash : ascii := ascii_of_nat 92.

Fixpoint contains (c : ascii) (s : string) : bool :=
  match s with
  | EmptyString => false
  | String c' s' => if decide (c = c') then true else contains c s'
  end.

Definition hex_digit (n : nat) : ascii :=
  match String.get n "0123456789abcdef" with
  | Some c => c
  | None => "0"%char
  end.

(** One character of [repr(s)] for a [str] [s], [q] being the quote
    chosen.  Bytes from 128 on stand for the UTF-8 encoding of non-ASCII
    characters and are kept, as Python keeps printable ones. *)
Definition repr_char (q c : ascii) : string :=
  let n := nat_of_ascii c in
  if decide (c = q ∨ c = backslash) then String backslash (String c EmptyString)
  else if decide (n = 9) then String backslash "t"
  else if decide (n = 10) then String backslash "n"
  else if decide (n = 13) then String backslash "r"
  else if decide (n < 32 ∨ n = 127) then
    String backslash
      (String "x" (String (hex_digit (n / 16)) (String (hex_digit (n mod 16)) EmptyString)))
  else String c EmptyString.

Fixpoint repr_chars (q : ascii) (s : string) : string :=
  match s with
  | EmptyString => EmptyString
  | String c s' => repr_char q c +:+ repr_chars q s'
  end.

(** [repr(s)]: single quotes, unless [s] has a single quote and no double
    quote. *)
Definition repr_str (s : string) : string :=
  let q := if contains squote s && negb (contains dquote s)
           then dquote else squote in
  String q (repr_chars q s +:+ String q EmptyString).

Fixpoint join (sep : string) (l : list string) : string :=
  match l with
  | [] => EmptyString
  | [x] => x
  | x :: l' => x +:+ sep +:+ join sep l'
  end.

(** [str(d)] for a dict from [str] to [int]. *)
Definition str_dict (d : list (string * nat)) : string :=
  "{" +:+ join ", " ((λ kv, repr_str kv.1 +:+ ": " +:+ pretty kv.2) <$> d) +:+ "}".
End PyRepr.

(** ** The cloud client, as the watchdog uses it *)

(** An instance as returned by the client: the attributes the watchdog
    reads ([id], [name], [status], [stopped],
    [scheduling_policy.preemptible], [labels]). *)
Record ComputeInstance := {
  inst_id : string;
  inst_name : string;
  inst_status : string;
  inst_stopped : bool;
  inst_preemptible : bool;
  inst_labels : gmap string string
}.

(** [compute.instance(id)] returns an instance or raises. *)
Inductive fetch_result :=
| Fetched (instance : ComputeInstance)
| FetchRaised (err : string).

(** [instance.start(...)] returns or raises [YandexCloudError], the error
    class of the client library. *)
Inductive start_result :=
| StartOk
| StartRaised (err : string).

(** What the cloud answers during one resolution round.  Listing a folder
    is taken to return (the watchdog has no handler around it). *)
Record ComputeClient := {
  instance : string → fetch_result;
  instances_in_folder : option string → list ComputeInstance;
  start : ComputeInstance → start_result
}.

(** ** Traces *)

Inductive level := DEBUG | INFO | WARNING | ERROR.

(** The log lines of the program: one constructor per format string, with
    the values it interpolates ([Unsuitable_state] carries the status that
    the line shows in lower case; the process id is left out). *)
Inductive message :=
| Watchdog_started
| Filter_info (label_name text : string)
| Conf (interval : N) (func_name : string) (filename : option string)
| Instance_list_to_watch (l : list (string * string))
| Instance_list_empty
| Validating_instances
| Removing_not_preemptible (id name : string)
| Fetch_error (err : string)
| VM_statistics (stats : string)
| Instance_stopped_starting (name id : string)
| Instance_started (name : string)
| Instance_not_started (name err : string)
| Unsuitable_state (status : string)
| Created_tasks (n : nat)
| Preparing_tasks
| Tasks_completed.

Inductive action :=
| Log (lvl : level) (msg : message)
| Api_instance (id : string)
| Api_instances_in_folder (folder : option string)
| Api_start (id : string)
| Pop (i : nat) (id : string)
| Sleep (seconds : N).

(** [Gather tasks]: [asyncio.gather] run to completion, one trace per
    coroutine; how the coroutines interleave is not fixed. *)
Inductive event :=
| Act (a : action)
| Gather (tasks : list (list action)).

Global Instance level_eq_dec : EqDecision level.
Proof. solve_decision. Defined.
Global Instance message_eq_dec : EqDecision message.
Proof. solve_decision. Defined.
Global Instance action_eq_dec : EqDecision action.
Proof. solve_decision. Defined.
Global Instance event_eq_dec : EqDecision event.
Proof. solve_decision. Defined.

(** ** Configuration and process state *)

(** The settings the core reads.  [instances] is the list as configured;
    the list the program mutates lives in [State]. *)
Record Config := {
  instances : list string;
  interval : N;
  folder_id : option string;
  label_name : string;
  label_go_value : option string;
  label_no_go_value : option string;
  log_filename : option string
}.

(** What one iteration hands to the next: [config.instances], the global
    [last_status_stats], and whether the thread's event loop (the object
    [asyncio.get_event_loop()] returns at each call) has been closed. *)
Record State := {
  working_list : list string;
  last_status_stats : string;
  loop_closed : bool
}.

Definition TargetSet := list (string * ComputeInstance).

(** ** Status aggregator *)

(** The histogram built by the [for] loop of [prep_and_log_statistics]. *)
Definition count_status (instances_dict : list (string * nat)) (i : ComputeInstance)
  : list (string * nat) :=
  PyDict.set (inst_status i)
             (default 0 (PyDict.get (inst_status i) instances_dict) + 1)
             instances_dict.

Definition status_histogram (instances : TargetSet) : list (string * nat) :=
  foldl count_status [] (PyDict.values instances).

(** [prep_and_log_statistics]: the new value of [last_status_stats] and the
    log calls made. *)
Definition prep_and_log_statistics (instances : TargetSet) (last : string)
  : string * list action :=
  let new_status_stats := PyRepr.str_dict (status_histogram instances) in
  if decide (new_status_stats ≠ last)
  then (new_status_stats, [Log INFO (VM_statistics new_status_stats)])
  else (last, []).

(** ** Target selectors *)

(** The loop of [get_instances_from_config].  [i] is at once the counter of
    [enumerate] and the position of the list iterator, which advance
    together; the iterator reads the list as it is now, after the pops.
    [fuel] bounds the number of iterations. *)
Fixpoint validate (compute : ComputeClient) (fuel i : nat) (lst : list string)
    (instances : TargetSet) (acts : list action)
  : list string * TargetSet * list action :=
  match fuel with
  | 0 => (lst, instances, acts)
  | S fuel' =>
      match lst !! i with
      | None => (lst, instances, acts)
      | Some instance_id =>
          match instance compute instance_id with
          | Fetched inst =>
              if inst_preemptible inst
              then validate compute fuel' (S i) lst
                     (PyDict.set (inst_id inst) inst instances)
                     (acts ++ [Api_instance instance_id])
              else validate compute fuel' (S i) (delete i lst) instances
                     (acts ++ [Api_instance instance_id;
                               Log WARNING (Removing_not_preemptible (inst_id inst) (inst_name inst));
                               Pop i instance_id])
          | FetchRaised err =>
              validate compute fuel' (S i) (delete i lst) instances
                (acts ++ [Api_instance instance_id; Log ERROR (Fetch_error err);
                          Pop i instance_id])
          end
      end
  end.

Definition get_instances_from_config (compute : ComputeClient) (lst : list string)
  : list string * TargetSet * list action :=
  validate compute (length lst) 0 lst [] [Log DEBUG Validating_instances].

Definition label_is (cfg : Config) (v : option string) (i : ComputeInstance) : bool :=
  bool_decide (inst_labels i !! label_name cfg = v).

Definition get_instances_from_yc_folder (compute : ComputeClient) (cfg : Config)
  : TargetSet * list action :=
  let instance_list := instances_in_folder compute (folder_id cfg) in
  let instance_list := filter (λ i, inst_preemptible i = true) instance_list in
  let instance_list :=
    if truthy (label_go_value cfg)
    then filter (λ i, label_is cfg (label_go_value cfg) i = true) instance_list
    else if truthy (label_no_go_value cfg)
    then filter (λ i, negb (label_is cfg (label_no_go_value cfg) i) = true) instance_list
    else instance_list in
  (PyDict.of_pairs ((λ i, (inst_id i, i)) <$> instance_list),
   [Api_instances_in_folder (folder_id cfg)]).

(** ** Dispatcher *)

Definition start_instance (compute : ComputeClient) (i : ComputeInstance) : list action :=
  if inst_stopped i then
    [Log INFO (Instance_stopped_starting (inst_name i) (inst_id i));
     Api_start (inst_id i)] ++
    match start compute i with
    | StartOk => [Log INFO (Instance_started (inst_name i))]
    | StartRaised err => [Log ERROR (Instance_not_started (inst_name i) err)]
    end
  else [Log DEBUG (Unsuitable_state (inst_status i))].

(** [prepare_start_tasks] followed by [run_until_complete] on an open
    loop. *)
Definition prepare_start_tasks (compute : ComputeClient) (instances : list ComputeInstance)
  : list event :=
  [Act (Log DEBUG (Created_tasks (length instances)));
   Gather (start_instance compute <$> instances)].

(** ** Reconciliation loop *)

(** The selector bound to [get_instances_func] at startup. *)
Inductive get_instances_func :=
| from_config
| from_yc_folder.

Definition func_name (f : get_instances_func) : string :=
  match f with
  | from_config => "get_instances_from_config"
  | from_yc_folder => "get_instances_from_yc_folder"
  end.

(** [get_instances_func()]: the working list afterwards, the TargetSet and
    the calls made. *)
Definition get_instances (f : get_instances_func) (cfg : Config)
    (compute : ComputeClient) (lst : list string)
  : list string * TargetSet * list action :=
  match f with
  | from_config => get_instances_from_config compute lst
  | from_yc_folder =>
      let '(instances, acts) := get_instances_from_yc_folder compute cfg in
      (lst, instances, acts)
  end.

(** Uncaught exceptions: [TypeError] from concatenating [str] and [None];
    [RuntimeError] ("Event loop is closed") from scheduling a task on a
    closed event loop.  In the main thread [asyncio.get_event_loop()]
    returns the loop it created at its first call, closed or not;
    [create_task] and [run_until_complete] first check that the loop is not
    closed. *)
Inductive exn := TypeError | RuntimeError.

Inductive status :=
| Running (st : State)
| Exited (code : Z)
| Raised (e : exn).

(** One pass through the body of [while True]. *)
Definition round (f : get_instances_func) (cfg : Config) (compute : ComputeClient)
    (st : State) : list event * status :=
  let '(lst, all_matching_instances, acts) :=
    get_instances f cfg compute (working_list st) in
  let '(last, stat_acts) :=
    prep_and_log_statistics all_matching_instances (last_status_stats st) in
  let stopped_instances :=
    filter (λ i, inst_stopped i = true) (PyDict.values all_matching_instances) in
  let before := Act <$> (acts ++ stat_acts) in
  if list_truthy stopped_instances then
    if loop_closed st then
      (before ++ [Act (Log DEBUG Preparing_tasks);
                  Act (Log DEBUG (Created_tasks (length stopped_instances)))],
       Raised RuntimeError)
    else
      (before ++ [Act (Log DEBUG Preparing_tasks)]
              ++ prepare_start_tasks compute stopped_instances
              ++ [Act (Log DEBUG Tasks_completed); Act (Sleep (interval cfg))],
       Running {| working_list := lst; last_status_stats := last;
                  loop_closed := true |})
  else
    (before ++ [Act (Sleep (interval cfg))],
     Running {| working_list := lst; last_status_stats := last;
                loop_closed := loop_closed st |}).

(** What the cloud answers at each resolution: [world 0] at the initial
    one, [world k] in iteration [k] of the loop. *)
Definition World := nat → ComputeClient.

(** The first [n] iterations of [while True], starting at iteration [k]. *)
Fixpoint rounds (f : get_instances_func) (cfg : Config) (world : World)
    (n k : nat) (st : State) : list event * status :=
  match n with
  | 0 => ([], Running st)
  | S n' =>
      match round f cfg (world k) st with
      | (evs, Running st') =>
          let '(evs', s) := rounds f cfg world n' (S k) st' in (evs ++ evs', s)
      | (evs, s) => (evs, s)
      end
  end.

(** [main] up to the first call of [get_instances_func]: the selector
    chosen and the lines logged, or the exception raised. *)
Definition startup (cfg : Config) : list action * option get_instances_func :=
  let started := [Log INFO Watchdog_started] in
  let conf f :=
    Log INFO (Conf (interval cfg) (func_name f)
                   (if truthy (log_filename cfg) then log_filename cfg else None)) in
  if list_truthy (instances cfg) then (started ++ [conf from_config], Some from_config)
  else
    if truthy (label_go_value cfg) then
      (started ++ [Log INFO (Filter_info (label_name cfg)
                               ("(+) " +:+ default EmptyString (label_go_value cfg)));
                   conf from_yc_folder],
       Some from_yc_folder)
    else
      match label_no_go_value cfg with
      | Some v =>
          (started ++ [Log INFO (Filter_info (label_name cfg) ("(-) " +:+ v));
                       conf from_yc_folder],
           Some from_yc_folder)
      | None => (started, None)
      end.

Definition initial_state (cfg : Config) : State :=
  {| working_list := instances cfg; last_status_stats := EmptyString;
     loop_closed := false |}.

(** [main], cut after [n] iterations of the loop. *)
Definition main (cfg : Config) (world : World) (n : nat) : list event * status :=
  match startup cfg with
  | (acts, None) => (Act <$> acts, Raised TypeError)
  | (acts, Some f) =>
      let '(lst, init_instance_list, racts) :=
        get_instances f cfg (world 0) (working_list (initial_state cfg)) in
      if list_truthy init_instance_list then
        let st := {| working_list := lst; last_status_stats := EmptyString;
                     loop_closed := false |} in
        let '(evs, s) := rounds f cfg world n 1 st in
        ((Act <$> (acts ++ racts ++
            [Log INFO (Instance_list_to_watch
               ((λ i, (inst_id i, inst_name i)) <$> PyDict.values init_instance_list))]))
           ++ evs, s)
      else
        (Act <$> (acts ++ racts ++ [Log ERROR Instance_list_empty]), Exited 0)
  end.

(** ** Reading a trace *)

(** The outcome of one coroutine, as its last log line tells it. *)
Inductive RemediationOutcome :=
| Skipped
| Started
| Failed (reason : string).

Definition outcome (task : list action) : option RemediationOutcome :=
  match last task with
  | Some (Log DEBUG (Unsuitable_state _)) => Some Skipped
  | Some (Log INFO (Instance_started _)) => Some Started
  | Some (Log ERROR (Instance_not_started _ reason)) => Some (Failed reason)
  | _ => None
  end.

(** The outcome that goes with the answer of a start call. *)
Definition outcome_of_start (r : start_result) : RemediationOutcome :=
  match r with StartOk => Started | StartRaised reason => Failed reason end.

Definition is_start_of (id : string) (a : action) : bool :=
  match a with Api_start id' => bool_decide (id = id') | _ => false end.

Definition is_start (a : action) : bool :=
  match a with Api_start _ => true | _ => false end.

Definition is_fetch_of (id : string) (a : action) : bool :=
  match a with Api_instance id' => bool_decide (id = id') | _ => false end.

Definition is_statistics (a : action) : bool :=
  match a with Log _ (VM_statistics _) => true | _ => false end.

Definition is_sleep (a : action) : bool :=
  match a with Sleep _ => true | _ => false end.

(** Actions that belong to the body of the loop only: a statistics line, a
    sleep, a start call. *)
Definition of_loop_body (a : action) : bool :=
  is_statistics a || is_sleep a || is_start a.

(** All actions of a trace, the coroutines of a [Gather] one after the
    other (used to count, where order between coroutines does not matter). *)
Definition actions_of (evs : list event) : list action :=
  evs ≫= λ e, match e with Act a => [a] | Gather tasks => concat tasks end.

Definition is_gather (e : event) : bool :=
  match e with Gather _ => true | Act _ => false end.

Definition count {A} (p : A → bool) (l : list A) : nat :=
  length (filter (λ a, p a = true) l).

(** The outcomes of the coroutines gathered in a trace, in the order of the
    instances handed to [prepare_start_tasks]. *)
Definition dispatch_outcomes (evs : list event) : list (option RemediationOutcome) :=
  evs ≫= λ e, match e with Act _ => [] | Gather tasks => outcome <$> tasks end.

(** ** Successive resolutions of the explicit list *)

(** [config.instances] before resolution [r] (the initial resolution is
    resolution 0), [lst] being the configured list. *)
Fixpoint working (world : World) (lst : list string) (r : nat) : list string :=
  match r with
  | 0 => lst
  | S r' => (get_instances_from_config (world r') (working world lst r')).1.1
  end.

(** Resolution [r]: working list afterwards, TargetSet, calls. *)
Definition resolution (world : World) (lst : list string) (r : nat)
  : list string * TargetSet * list action :=
  get_instances_from_config (world r) (working world lst r).

(** ** The label filters, as the specification words them *)

Definition with_labels (cfg : Config) (go no_go : option string) : Config :=
  {| instances := instances cfg; interval := interval cfg;
     folder_id := folder_id cfg; label_name := label_name cfg;
     label_go_value := go; label_no_go_value := no_go;
     log_filename := log_filename cfg |}.

Definition target_set_of (l : list ComputeInstance) : TargetSet :=
  PyDict.of_pairs ((λ i, (inst_id i, i)) <$> l).

(** Allow-list on [X]: the preemptible instances of the scope whose label
    [label_name] is [X]. *)
Definition allow_list (compute : ComputeClient) (cfg : Config) (X : string) : TargetSet :=
  target_set_of
    (filter (λ i, inst_preemptible i = true ∧ inst_labels i !! label_name cfg = Some X)
            (instances_in_folder compute (folder_id cfg))).

(** All preemptible instances of the scope. *)
Definition all_preemptible (compute : ComputeClient) (cfg : Config) : TargetSet :=
  target_set_of
    (filter (λ i, inst_preemptible i = true)
            (instances_in_folder compute (folder_id cfg))).

(** ** Scenarios *)

Module Scenario.
Definition vm (id status : string) (stopped preemptible : bool)
    (automation : option string) : ComputeInstance :=
  {| inst_id := id; inst_name := "vm-" +:+ id; inst_status := status;
     inst_stopped := stopped; inst_preemptible := preemptible;
     inst_labels := match automation with
                    | Some v => {[ "automation" := v ]}
                    | None => ∅
                    end |}.

Definition cfg (ids : list string) (go no_go : option string) : Config :=
  {| instances := ids; interval := 15; folder_id := Some "b1gafdpppaiaiu2a4444";
     label_name := "automation"; label_go_value := go;
     label_no_go_value := no_go; log_filename := None |}.

(** A cloud where every identifier but [bad] is a stopped preemptible
    instance whose start succeeds; fetching [bad] raises. *)
Definition all_stopped_but (bad : string) : ComputeClient :=
  {| instance := λ id, if decide (id = bad) then FetchRaised "not found"
                       else Fetched (vm id "STOPPED" true true None);
     instances_in_folder := λ _, [];
     start := λ _, StartOk |}.

(** A folder with one running instance labelled [let_vm_stop] and one
    stopped instance labelled [keep_vm_up], both preemptible. *)
Definition labelled_folder : ComputeClient :=
  {| instance := λ _, FetchRaised "not found";
     instances_in_folder := λ _,
       [vm "x" "RUNNING" false true (Some "let_vm_stop");
        vm "y" "STOPPED" true true (Some "keep_vm_up")];
     start := λ _, StartOk |}.

(** Two instances [a], [b] with the given statuses. *)
Definition pair (sa sb : string) : TargetSet :=
  [("a", vm "a" sa (bool_decide (sa = "STOPPED")) true None);
   ("b", vm "b" sb (bool_decide (sb = "STOPPED")) true None)].



(** The identifier [A] cannot be fetched at the initial resolution and
    can from then on. *)
Definition recovering : World :=
  λ r, match r with 0 => all_stopped_but "A" | S _ => all_stopped_but "none" end.

(** A cloud with no instance at all. *)
Definition empty_cloud : ComputeClient :=
  {| instance := λ _, FetchRaised "not found";
     instances_in_folder := λ _, [];
     start := λ _, StartOk |}.
End Scenario.

(** ** Further readings of a trace *)

Definition is_pop (a : action) : bool :=
  match a with Pop _ _ => true | _ => false end.

Definition is_fetch (a : action) : bool :=
  match a with Api_instance _ => true | _ => false end.

(** The identifiers the validation loop pops when it visits them: the fetch
    raises, or the instance is not preemptible. *)
Definition droppable (compute : ComputeClient) (id : string) : bool :=
  match instance compute id with
  | Fetched inst => negb (inst_preemptible inst)
  | FetchRaised _ => true
  end.

(** A pop made for cause, of an identifier of [L]. *)
Definition pop_justified (compute : ComputeClient) (L : list string) (a : action) : Prop :=
  match a with
  | Pop _ id => droppable compute id = true ∧ id ∈ L
  | _ => True
  end.

(** The dict item the validation loop assigns for an identifier it keeps. *)
Definition fetched_item (compute : ComputeClient) (id : string)
  : option (string * ComputeInstance) :=
  match instance compute id with
  | Fetched inst => Some (inst_id inst, inst)
  | FetchRaised _ => None
  end.

(** A TargetSet holds each instance once, under the instance's own
    identifier. *)
Definition well_keyed (ts : TargetSet) : Prop :=
  NoDup (PyDict.keys ts) ∧ Forall (λ kv, kv.1 = inst_id kv.2) ts.

(** The outcome the dispatcher reaches for an instance. *)
Definition outcome_for (compute : ComputeClient) (x : ComputeInstance)
  : RemediationOutcome :=
  if inst_stopped x then outcome_of_start (start compute x) else Skipped.

(** The number of instances of a TargetSet that have status [s]. *)
Definition with_status (s : string) (l : list ComputeInstance) : nat :=
  length (filter (λ x, inst_status x = s) l).

(** A start call made for a stopped, preemptible member of [ts]. *)
Definition start_justified (ts : TargetSet) (a : action) : Prop :=
  match a with
  | Api_start id =>
      ∃ x, (id, x) ∈ ts ∧ inst_stopped x = true ∧ inst_preemptible x = true
  | _ => True
  end.

(** Deny-list on [Y]: the preemptible instances of the scope whose label
    [label_name] is not [Y] (unlabelled ones included). *)
Definition deny_list (compute : ComputeClient) (cfg : Config) (Y : string) : TargetSet :=
  target_set_of
    (filter (λ i, inst_preemptible i = true ∧ inst_labels i !! label_name cfg ≠ Some Y)
            (instances_in_folder compute (folder_id cfg))).

(** ** Command line, configuration file and client (class [Config]) *)

(** The values the configuration holds: [None], booleans, integers,
    strings and sequences (a YAML list, a tuple). *)
#[warnings="-register-all"]
Inductive pyval :=
| PNone
| PBool (b : bool)
| PInt (n : Z)
| PStr (s : string)
| PList (l : list pyval).


Definition is_none (v : pyval) : bool :=
  match v with PNone => true | _ => false end.

(** [v == s] for a string [s]. *)
Definition eq_str (v : pyval) (s : string) : bool :=
  match v with PStr s' => bool_decide (s' = s) | _ => false end.

(** [v in (s1, ..., sn)] for a tuple of strings: equality with one of
    them. *)
Definition in_tuple (v : pyval) (t : list string) : bool :=
  match v with PStr s => bool_decide (s ∈ t) | _ => false end.

(** [x in s] for two strings: [x] occurs in [s]. *)
Fixpoint str_in (x s : string) : bool :=
  String.prefix x s
  || match s with EmptyString => false | String _ s' => str_in x s' end.

(** [s.split(sep)] for a separator of one character. *)
Fixpoint split_on (sep : ascii) (s : string) : list string :=
  match s with
  | EmptyString => [EmptyString]
  | String c s' =>
      if decide (c = sep) then EmptyString :: split_on sep s'
      else match split_on sep s' with
           | [] => [String c EmptyString]
           | piece :: pieces => String c piece :: pieces
           end
  end.

Definition comma : ascii := ascii_of_nat 44.

(** The parsed command line. *)
Record Args := {
  arg_token : option string;
  arg_interval : option Z;
  arg_instances : option string;
  arg_loglevel : option string;
  arg_config_file : string
}.

(** [args.instances.split(",") if args.instances else []] *)
Definition instances_of_arg (a : option string) : list string :=
  if truthy a then split_on comma (default EmptyString a) else [].



Inductive config_message :=
| Config_file_not_found
| Corrupted_config_file
| Auth_type_unknown
| Token_empty
| Sa_filepath_empty.

(** The exceptions of [Config(...)]: [YandexCloudError] with its message;
    [AttributeError] from calling [items] or [upper] on a value that has
    none; [TypeError] from [in] with a string on the right and something
    else on the left; failure to read the service account key. *)
Inductive config_exn :=
| Yandex_cloud_error (msg : config_message)
| Attribute_error
| Type_error
| Sa_key_unreadable.

(** The attributes of the [Config] object, by name. *)
Definition getattr (attrs : gmap string pyval) (name : string) : pyval :=
  default PNone (attrs !! name).

Definition opt_str (o : option string) : pyval :=
  match o with Some s => PStr s | None => PNone end.

(** The assignments of [__init__] before the file is read. *)
Definition init_attrs (args : Args) (filepath : option string) : gmap string pyval :=
  let interval := PInt (default 60%Z (arg_interval args)) in
  <["__required_params__" := PList [PNone; interval; PNone]]>
  (<["log_filename" := PNone]>
  (<["label_no_go_value" := PNone]>
  (<["label_go_value" := PNone]>
  (<["label_name" := PStr "automation"]>
  (<["folder_id" := PNone]>
  (<["loglevel" := PStr (if truthy (arg_loglevel args)
                         then default EmptyString (arg_loglevel args) else "INFO")]>
  (<["instances" := PList (PStr <$> instances_of_arg (arg_instances args))]>
  (<["interval" := interval]>
  (<["sa_filepath" := PNone]>
  (<["token" := if truthy (arg_token args) then opt_str (arg_token args) else PNone]>
  (<["auth_type" := PNone]>
  (<["filepath" := opt_str filepath]> ∅)))))))))))).

Section Config.
(** [str.lower] and [str.upper]. *)
Variables lower upper : string → string.

(** The body of the [for] loop of [__build_from_file] for one item whose key
    is a string that [setattr] accepts (a key that is not a string makes
    [key.lower()] raise, and [setattr] refuses some special names: such
    files are outside this model). *)
Definition set_item (attrs : gmap string pyval) (item : string * pyval)
  : config_exn + gmap string pyval :=
  let '(key, value) := item in
  if decide (lower key = "loglevel") then
    match value with
    | PStr s => inr (<[key := PStr (upper s)]> attrs)
    | _ => inl Attribute_error
    end
  else inr (<[key := value]> attrs).

Fixpoint set_items (attrs : gmap string pyval) (items : list (string * pyval))
  : config_exn + gmap string pyval :=
  match items with
  | [] => inr attrs
  | item :: items' =>
      match set_item attrs item with
      | inl e => inl e
      | inr attrs' => set_items attrs' items'
      end
  end.


(** [__verify]: the exception raised, if any. *)
Definition verify (auth_type token sa_filepath : pyval) : option config_exn :=
  if negb (in_tuple auth_type ["oauth"; "iam"; "inside-vm"; "sa"])
  then Some (Yandex_cloud_error Auth_type_unknown)
  else if in_tuple auth_type ["auth_type"; "iam"] && is_none token
  then Some (Yandex_cloud_error Token_empty)
  else match auth_type with
       | PStr s =>
           if str_in s "sa" && is_none sa_filepath
           then Some (Yandex_cloud_error Sa_filepath_empty)
           else None
       | _ => Some Type_error
       end.

End Config.

(** How the client is built from the configuration (the [if]/[elif] chain
    on [config.auth_type]); [None] when no branch applies and [compute]
    stays unbound. *)
Inductive client_auth :=
| Auth_inside_vm
| Service_account_key (key : pyval)
| Oauth_token (token : pyval)
| Iam_token (token : pyval).

Definition select_client (attrs : gmap string pyval) : option client_auth :=
  let auth_type := getattr attrs "auth_type" in
  if eq_str auth_type "inside-vm" then Some Auth_inside_vm
  else if eq_str auth_type "sa"
  then Some (Service_account_key (getattr attrs "sa_credentials"))
  else if eq_str auth_type "oauth" then Some (Oauth_token (getattr attrs "token"))
  else if eq_str auth_type "iam" then Some (Iam_token (getattr attrs "token"))
  else None.



(** ASCII case mapping, for the scenarios. *)
Module AsciiCase.
Definition lower_char (c : ascii) : ascii :=
  let n := nat_of_ascii c in
  if decide (65 ≤ n ≤ 90) then ascii_of_nat (n + 32) else c.

Definition upper_char (c : ascii) : ascii :=
  let n := nat_of_ascii c in
  if decide (97 ≤ n ≤ 122) then ascii_of_nat (n - 32) else c.

Fixpoint map_string (g : ascii → ascii) (s : string) : string :=
  match s with
  | EmptyString => EmptyString
  | String c s' => String (g c) (map_string g s')
  end.

Definition lower : string → string := map_string lower_char.
Definition upper : string → string := map_string upper_char.
End AsciiCase.

(** Configurations for the scenarios. *)
Module ConfigScenario.
Definition args : Args :=
  {| arg_token := None; arg_interval := Some 30%Z; arg_instances := Some "a,b";
     arg_loglevel := None; arg_config_file := "config.yaml" |}.


(** The configuration that file gives with [args]. *)
Definition oauth_config : gmap string pyval :=
  <["LogLevel" := PStr "DEBUG"]>
  (<["interval" := PInt 15]>
  (<["auth_type" := PStr "oauth"]> (init_attrs args (Some "config.yaml")))).

(** A file whose log level is a number. *)
Definition numeric_loglevel_file : list (string * pyval) :=
  [("auth_type", PStr "oauth"); ("loglevel", PInt 10)].
End ConfigScenario.

(** * Properties *)

Example str_dict_ex :
  PyRepr.str_dict [("RUNNING", 2); ("STOPPED", 11)] = "{'RUNNING': 2, 'STOPPED': 11}".
Proof. vm_compute. reflexivity. Qed.

(** ** Facts about dicts *)

Section dict_facts.
Context {V : Type}.
Implicit Types (d : list (string * V)) (k : string) (v : V).

Lemma values_set_Forall (P : V → Prop) k v d :
  P v → Forall P (PyDict.values d) → Forall P (PyDict.values (PyDict.set k v d)).
Proof.
  intros Hv. unfold PyDict.values.
  induction d as [|[k' v'] d IH]; simpl; intros Hd.
  - by constructor.
  - apply Forall_cons in Hd as [Hv' Hd].
    case_decide; simpl; apply Forall_cons; auto.
Qed.

Lemma keys_set k v d x :
  x ∈ PyDict.keys (PyDict.set k v d) → x = k ∨ x ∈ PyDict.keys d.
Proof.
  unfold PyDict.keys.
  induction d as [|[k' v'] d IH]; simpl.
  - rewrite list_elem_of_singleton. auto.
  - case_decide; simpl; rewrite !elem_of_cons; [subst; tauto|].
    intros [->|Hx]; [tauto|]. destruct (IH Hx); tauto.
Qed.

Lemma values_of_pairs_Forall (P : V → Prop) (l : list (string * V)) :
  Forall P l.*2 → Forall P (PyDict.values (PyDict.of_pairs l)).
Proof.
  unfold PyDict.of_pairs.
  assert (∀ d, Forall P (PyDict.values d) → Forall P l.*2 →
               Forall P (PyDict.values (foldl (λ d kv, PyDict.set kv.1 kv.2 d) d l)))
    as H.
  { induction l as [|[k v] l IH]; simpl; intros d Hd Hl; [done|].
    apply Forall_cons in Hl as [Hv Hl].
    apply IH; [|done]. by apply values_set_Forall. }
  intros Hl. apply H; [constructor|done].
Qed.
End dict_facts.

(** ** Facts about the validation loop *)

Section validate_facts.
Variable compute : ComputeClient.

(** The loop has ended when the fuel covers what is left of the list:
    more fuel changes nothing. *)
Lemma validate_enough_fuel fuel fuel' i lst d acts :
  length lst - i ≤ fuel → fuel ≤ fuel' →
  validate compute fuel' i lst d acts = validate compute fuel i lst d acts.
Proof.
  revert fuel' i lst d acts.
  induction fuel as [|fuel IH]; intros fuel' i lst d acts Hlen Hle.
  - assert (lst !! i = None) as Hi by (apply lookup_ge_None; lia).
    destruct fuel'; simpl; [done|]. by rewrite Hi.
  - destruct fuel' as [|fuel']; [lia|]. simpl.
    destruct (lst !! i) as [instance_id|] eqn:Hi; [|done].
    apply lookup_lt_Some in Hi.
    destruct (instance compute instance_id) as [inst|err].
    + destruct (inst_preemptible inst).
      * apply IH; lia.
      * apply IH; [|lia].
        rewrite length_delete by (by apply lookup_lt_is_Some). lia.
    + apply IH; [|lia].
      rewrite length_delete by (by apply lookup_lt_is_Some). lia.
Qed.

(** Every member of the TargetSet passed the preemptible test. *)
Lemma validate_preemptible fuel i lst d acts :
  Forall (λ x, inst_preemptible x = true) (PyDict.values d) →
  Forall (λ x, inst_preemptible x = true)
         (PyDict.values (validate compute fuel i lst d acts).1.2).
Proof.
  revert i lst d acts.
  induction fuel as [|fuel IH]; intros i lst d acts Hd; simpl; [done|].
  destruct (lst !! i) as [instance_id|]; [|done].
  destruct (instance compute instance_id) as [inst|err]; [|by apply IH].
  destruct (inst_preemptible inst) eqn:Hp; [|by apply IH].
  apply IH. by apply values_set_Forall.
Qed.

(** The working list only loses elements. *)
Lemma validate_sublist fuel i lst d acts :
  (validate compute fuel i lst d acts).1.1 `sublist_of` lst.
Proof.
  revert i lst d acts.
  induction fuel as [|fuel IH]; intros i lst d acts; simpl; [done|].
  destruct (lst !! i) as [instance_id|]; [|done].
  destruct (instance compute instance_id) as [inst|err].
  - destruct (inst_preemptible inst); [apply IH|].
    etrans; [apply IH|apply sublist_delete].
  - etrans; [apply IH|apply sublist_delete].
Qed.
End validate_facts.

(** ** Target selectors *)

Lemma truthy_nonempty (X : string) : X ≠ EmptyString → truthy (Some X) = true.
Proof. by destruct X. Qed.

Lemma yc_folder_preemptible compute cfg :
  Forall (λ i, inst_preemptible i = true)
         (PyDict.values (get_instances_from_yc_folder compute cfg).1).
Proof.
  unfold get_instances_from_yc_folder. simpl.
  apply values_of_pairs_Forall.
  rewrite <-list_fmap_compose.
  apply Forall_fmap, Forall_forall. intros i Hi. simpl.
  repeat case_match; repeat (apply list_elem_of_filter in Hi as [? Hi]); done.
Qed.

(** C4. Whichever selector is bound to [get_instances_func], whatever the
    cloud answers and whatever the working list holds, every instance of
    the TargetSet returned has [preemptible == true]; so no member is
    non-preemptible. *)
Theorem C4_target_sets_hold_preemptible_only
    (f : get_instances_func) (cfg : Config) (compute : ComputeClient)
    (lst : list string) :
  Forall (λ i, inst_preemptible i = true)
         (PyDict.values (get_instances f cfg compute lst).1.2)
  ∧ ¬ ∃ i, i ∈ PyDict.values (get_instances f cfg compute lst).1.2
           ∧ inst_preemptible i = false.
Proof.
  assert (Forall (λ i, inst_preemptible i = true)
                 (PyDict.values (get_instances f cfg compute lst).1.2)) as H.
  { destruct f; unfold get_instances.
    - apply validate_preemptible. constructor.
    - pose proof (yc_folder_preemptible compute cfg) as H.
      by destruct (get_instances_from_yc_folder compute cfg) as [ts acts]. }
  split; [done|]. intros (i & Hi & Hp).
  rewrite Forall_forall in H. specialize (H i Hi). congruence.
Qed.

(** C5, as stated, fails when the go value is the empty string: the test
    [if config.label_go_value] is false for it, so the deny-list on the
    no-go value applies.  With go value [""] and no-go value [let_vm_stop]
    the instance labelled [let_vm_stop] is left out, while with the go
    value alone it is kept; and the result is not the allow-list on [""]. *)
Lemma C5_empty_go_value_counterexample :
  (get_instances_from_yc_folder Scenario.labelled_folder
     (Scenario.cfg [] (Some EmptyString) (Some "let_vm_stop"))).1
  ≠ (get_instances_from_yc_folder Scenario.labelled_folder
       (Scenario.cfg [] (Some EmptyString) None)).1
  ∧ (get_instances_from_yc_folder Scenario.labelled_folder
       (Scenario.cfg [] (Some EmptyString) (Some "let_vm_stop"))).1
    ≠ allow_list Scenario.labelled_folder
        (Scenario.cfg [] (Some EmptyString) (Some "let_vm_stop")) EmptyString.
Proof. split; vm_compute; discriminate. Qed.

(** C5 (amended). For every scope listing, every non-empty go value [X] and
    every no-go value [Y], the TargetSet resolved with both configured is
    the one resolved with [X] alone, and it is the allow-list on [X]; with
    neither value configured the TargetSet is all preemptible instances of
    the scope. *)
Theorem C5_go_value_takes_precedence
    (compute : ComputeClient) (cfg : Config) (X Y : string) :
  X ≠ EmptyString →
  (get_instances_from_yc_folder compute (with_labels cfg (Some X) (Some Y))).1
  = (get_instances_from_yc_folder compute (with_labels cfg (Some X) None)).1
  ∧ (get_instances_from_yc_folder compute (with_labels cfg (Some X) (Some Y))).1
    = allow_list compute cfg X
  ∧ (get_instances_from_yc_folder compute (with_labels cfg None None)).1
    = all_preemptible compute cfg.
Proof.
  intros HX. apply truthy_nonempty in HX.
  unfold get_instances_from_yc_folder, allow_list, all_preemptible, target_set_of.
  cbn [with_labels label_go_value label_no_go_value label_name folder_id fst].
  rewrite HX. split; [done|]. split; [|done].
  do 2 f_equal. rewrite list_filter_filter. apply list_filter_iff.
  intros i. unfold label_is. simpl. rewrite bool_decide_eq_true. tauto.
Qed.

Lemma C5_go_value_takes_precedence_witness :
  "keep_vm_up" ≠ EmptyString
  ∧ (get_instances_from_yc_folder Scenario.labelled_folder
       (with_labels (Scenario.cfg [] None None) (Some "keep_vm_up") (Some "let_vm_stop"))).1
    = allow_list Scenario.labelled_folder (Scenario.cfg [] None None) "keep_vm_up".
Proof.
  split; [discriminate|].
  apply (C5_go_value_takes_precedence Scenario.labelled_folder
           (Scenario.cfg [] None None) "keep_vm_up" "let_vm_stop").
  discriminate.
Defined.

(** C2 fails on the code: [config.instances.pop(i)] runs while the list is
    being iterated, so the identifier that follows a dropped one moves to
    position [i] and the iterator, already at [i + 1], passes over it.  With
    working list [A, B], [A] failing to fetch and [B] a preemptible
    instance: only [A] is fetched, [B] is never fetched, stays in the
    working list and is missing from the TargetSet. *)
Theorem C2_identifier_after_a_drop_is_skipped :
  let compute := Scenario.all_stopped_but "A" in
  let r := get_instances_from_config compute ["A"; "B"] in
  instance compute "B" = Fetched (Scenario.vm "B" "STOPPED" true true None)
  ∧ r = (["B"], [],
         [Log DEBUG Validating_instances; Api_instance "A";
          Log ERROR (Fetch_error "not found"); Pop 0 "A"])
  ∧ count (is_fetch_of "B") r.2 = 0
  ∧ "B" ∈ r.1.1
  ∧ PyDict.get "B" r.1.2 = None.
Proof.
  cbv zeta. split; [reflexivity|]. split; [reflexivity|].
  split; [reflexivity|]. split; [|reflexivity].
  vm_compute. apply list_elem_of_here.
Qed.

(** ** Status aggregator *)

Lemma str_dict_nonempty (d : list (string * nat)) : PyRepr.str_dict d ≠ EmptyString.
Proof. unfold PyRepr.str_dict. simpl. discriminate. Qed.

(** After the call the retained string is the new snapshot's. *)
Lemma prep_retains (instances : TargetSet) (last : string) :
  (prep_and_log_statistics instances last).1
  = PyRepr.str_dict (status_histogram instances).
Proof. unfold prep_and_log_statistics. case_decide as H; simpl; congruence. Qed.

Lemma prep_same (instances : TargetSet) :
  prep_and_log_statistics instances (PyRepr.str_dict (status_histogram instances))
  = (PyRepr.str_dict (status_histogram instances), []).
Proof. unfold prep_and_log_statistics. by case_decide. Qed.

Lemma prep_changed (instances : TargetSet) (last : string) :
  last ≠ PyRepr.str_dict (status_histogram instances) →
  prep_and_log_statistics instances last
  = (PyRepr.str_dict (status_histogram instances),
     [Log INFO (VM_statistics (PyRepr.str_dict (status_histogram instances)))]).
Proof. intros H. unfold prep_and_log_statistics. by case_decide. Qed.

(** C3 fails on the code: the strings compared are [str(instances_dict)],
    which lists the statuses in the order in which they were first counted.
    Instances [a], [b] seen RUNNING, STOPPED and then STOPPED, RUNNING give
    the same count for every status, and the second snapshot is logged
    again. *)
Theorem C3_reordered_statistics_are_logged_again :
  let first := Scenario.pair "RUNNING" "STOPPED" in
  let second := Scenario.pair "STOPPED" "RUNNING" in
  (∀ status, PyDict.get status (status_histogram first)
             = PyDict.get status (status_histogram second))
  ∧ prep_and_log_statistics first EmptyString
    = ("{'RUNNING': 1, 'STOPPED': 1}",
       [Log INFO (VM_statistics "{'RUNNING': 1, 'STOPPED': 1}")])
  ∧ prep_and_log_statistics second "{'RUNNING': 1, 'STOPPED': 1}"
    = ("{'STOPPED': 1, 'RUNNING': 1}",
       [Log INFO (VM_statistics "{'STOPPED': 1, 'RUNNING': 1}")]).
Proof.
  cbv zeta. split; [|split; vm_compute; reflexivity].
  intros status.
  change (status_histogram (Scenario.pair "RUNNING" "STOPPED"))
    with [("RUNNING", 1); ("STOPPED", 1)].
  change (status_histogram (Scenario.pair "STOPPED" "RUNNING"))
    with [("STOPPED", 1); ("RUNNING", 1)].
  simpl. repeat case_decide; congruence.
Qed.

(** Two calls in succession with the same dict of counts (the same statuses
    in the same first-seen order): the second call logs nothing and leaves
    the retained string as it is; the retained string changes only by a call
    that logs; and from the initial, empty retained string the first
    snapshot is always logged. *)
Lemma same_histogram_logged_once
    (first second : TargetSet) (last : string) :
  status_histogram first = status_histogram second →
  let s := PyRepr.str_dict (status_histogram first) in
  let call1 := prep_and_log_statistics first last in
  let call2 := prep_and_log_statistics second call1.1 in
  call2 = (call1.1, [])
  ∧ (last ≠ s → length (call1.2 ++ call2.2) = 1)
  ∧ (call1.2 = [] → call1.1 = last)
  ∧ prep_and_log_statistics first EmptyString = (s, [Log INFO (VM_statistics s)])
  ∧ length ((prep_and_log_statistics first EmptyString).2
            ++ (prep_and_log_statistics second
                  (prep_and_log_statistics first EmptyString).1).2) = 1.
Proof.
  intros Hsame. cbv zeta.
  assert (∀ l, prep_and_log_statistics second (prep_and_log_statistics first l).1
               = ((prep_and_log_statistics first l).1, [])) as H2.
  { intros l. rewrite prep_retains, Hsame. apply prep_same. }
  assert (prep_and_log_statistics first EmptyString
          = (PyRepr.str_dict (status_histogram first),
             [Log INFO (VM_statistics (PyRepr.str_dict (status_histogram first)))]))
    as H0.
  { apply prep_changed. intros H. by apply (str_dict_nonempty (status_histogram first)). }
  split; [apply H2|]. split; [|split; [|split; [done|]]].
  - intros Hne. rewrite H2. by rewrite (prep_changed first last Hne).
  - unfold prep_and_log_statistics. by case_decide.
  - rewrite H2. by rewrite H0.
Qed.

(** C8 fails on the code, by the defect of C3: snapshots of the same
    content are compared through [str(instances_dict)], which depends on
    the order in which the statuses were first counted.  From the initial,
    empty retained string, instances [a], [b] seen RUNNING, STOPPED and then
    STOPPED, RUNNING have the same count for every status, and the two calls
    log two lines. *)
Theorem C8_same_content_is_logged_twice :
  let first := Scenario.pair "RUNNING" "STOPPED" in
  let second := Scenario.pair "STOPPED" "RUNNING" in
  let call1 := prep_and_log_statistics first EmptyString in
  let call2 := prep_and_log_statistics second call1.1 in
  (∀ status, PyDict.get status (status_histogram first)
             = PyDict.get status (status_histogram second))
  ∧ call1.2 = [Log INFO (VM_statistics "{'RUNNING': 1, 'STOPPED': 1}")]
  ∧ call2.2 = [Log INFO (VM_statistics "{'STOPPED': 1, 'RUNNING': 1}")]
  ∧ length (call1.2 ++ call2.2) = 2.
Proof.
  cbv zeta. split; [|repeat split; vm_compute; reflexivity].
  intros status.
  change (status_histogram (Scenario.pair "RUNNING" "STOPPED"))
    with [("RUNNING", 1); ("STOPPED", 1)].
  change (status_histogram (Scenario.pair "STOPPED" "RUNNING"))
    with [("STOPPED", 1); ("RUNNING", 1)].
  simpl. repeat case_decide; congruence.
Qed.

(** ** Dispatcher *)



Lemma dispatch_outcomes_tasks compute (l : list ComputeInstance) :
  dispatch_outcomes (prepare_start_tasks compute l)
  = outcome <$> (start_instance compute <$> l).
Proof. unfold dispatch_outcomes, prepare_start_tasks. simpl. apply app_nil_r. Qed.




(** ** Successive resolutions of the explicit list *)

Lemma delete_NoDup_absent (lst : list string) (i : nat) (x : string) :
  NoDup lst → lst !! i = Some x → x ∉ delete i lst.
Proof.
  intros Hnd Hi. rewrite delete_take_drop.
  rewrite <-(take_drop_middle lst i x Hi) in Hnd.
  apply NoDup_app in Hnd as (_ & Hl & [Hr _]%NoDup_cons).
  rewrite elem_of_app. intros [Hx|Hx]; [|done].
  apply (Hl x Hx), list_elem_of_here.
Qed.

Section resolution_facts.
Variable compute : ComputeClient.

(** An identifier popped from a duplicate-free list is not in the list
    the loop leaves. *)
Lemma validate_pop_absent fuel i lst d acts j id :
  NoDup lst →
  Pop j id ∈ (validate compute fuel i lst d acts).2 →
  Pop j id ∈ acts ∨ id ∉ (validate compute fuel i lst d acts).1.1.
Proof.
  revert i lst d acts.
  induction fuel as [|fuel IH]; intros i lst d acts Hnd; simpl; [auto|].
  destruct (lst !! i) as [instance_id|] eqn:Hi; [|auto].
  assert (∀ acts' d',
    (∀ a, a ∈ acts' → a = Pop j id → id = instance_id) →
    Pop j id ∈ (validate compute fuel (S i) (delete i lst) d' (acts ++ acts')).2 →
    Pop j id ∈ acts
    ∨ id ∉ (validate compute fuel (S i) (delete i lst) d' (acts ++ acts')).1.1)
    as Hdrop.
  { intros acts' d' Hacts' Hin.
    destruct (IH (S i) (delete i lst) d' (acts ++ acts')) as [Hp|Hp]; auto.
    { eapply sublist_NoDup; [done|apply sublist_delete]. }
    apply elem_of_app in Hp as [Hp|Hp]; [auto|]. right.
    rewrite (Hacts' _ Hp eq_refl). intros Hx.
    eapply delete_NoDup_absent; [done..|].
    eapply elem_of_sublist; [done|apply validate_sublist]. }
  destruct (instance compute instance_id) as [inst|err].
  - destruct (inst_preemptible inst).
    + intros Hin. destruct (IH _ _ _ _ Hnd Hin) as [Hp|Hp]; [|auto].
      apply elem_of_app in Hp as [Hp|Hp]; [auto|].
      apply list_elem_of_singleton in Hp. discriminate.
    + apply Hdrop. intros a Ha ->.
      rewrite !elem_of_cons, elem_of_nil in Ha.
      destruct Ha as [?|[?|[?|[]]]]; congruence.
  - apply Hdrop. intros a Ha ->.
    rewrite !elem_of_cons, elem_of_nil in Ha.
    destruct Ha as [?|[?|[?|[]]]]; congruence.
Qed.

(** When an instance carries the identifier it was asked for, the keys of
    the TargetSet are identifiers of the working list. *)
Lemma validate_keys fuel i lst d acts key :
  (∀ id x, instance compute id = Fetched x → inst_id x = id) →
  key ∈ PyDict.keys (validate compute fuel i lst d acts).1.2 →
  key ∈ PyDict.keys d ∨ key ∈ lst.
Proof.
  intros Hid. revert i lst d acts.
  induction fuel as [|fuel IH]; intros i lst d acts; simpl; [auto|].
  destruct (lst !! i) as [instance_id|] eqn:Hi; [|auto].
  assert (∀ d' acts',
    key ∈ PyDict.keys (validate compute fuel (S i) (delete i lst) d' acts').1.2 →
    key ∈ PyDict.keys d' ∨ key ∈ lst) as Hdrop.
  { intros d' acts' Hin. destruct (IH _ _ _ _ Hin) as [?|Hk]; [auto|].
    right. by eapply list_elem_of_delete_inv. }
  destruct (instance compute instance_id) as [inst|err] eqn:Hf; [|apply Hdrop].
  destruct (inst_preemptible inst); [|apply Hdrop].
  intros Hin. destruct (IH _ _ _ _ Hin) as [Hk|?]; [|auto].
  apply keys_set in Hk as [->|?]; [|auto].
  right. rewrite (Hid _ _ Hf). by eapply list_elem_of_lookup_2.
Qed.
End resolution_facts.

Lemma working_sublist (world : World) (lst : list string) (r r' : nat) :
  r ≤ r' → working world lst r' `sublist_of` working world lst r.
Proof.
  induction 1 as [|r' _ IH]; [done|].
  etrans; [|apply IH]. simpl. apply validate_sublist.
Qed.

(** Where the configured list repeats no identifier and every instance
    fetched carries the identifier it was asked for, an identifier popped in
    resolution [r] is in no later working list and in no later TargetSet. *)
Lemma unique_dropped_identifier_never_returns
    (world : World) (lst : list string) (r r' j : nat) (id : string) :
  NoDup lst →
  (∀ n id x, instance (world n) id = Fetched x → inst_id x = id) →
  Pop j id ∈ (resolution world lst r).2 →
  r < r' →
  (id ∉ working world lst r')
  ∧ (id ∉ PyDict.keys (resolution world lst r').1.2).
Proof.
  intros Hnd Hid Hpop Hlt.
  assert (id ∉ working world lst (S r)) as Hnext.
  { destruct (validate_pop_absent (world r) (length (working world lst r)) 0
                (working world lst r) [] [Log DEBUG Validating_instances] j id)
      as [Hp|Hp]; [| exact Hpop | | exact Hp].
    - eapply sublist_NoDup; [done|]. apply (working_sublist world lst 0 r). lia.
    - apply list_elem_of_singleton in Hp. discriminate. }
  assert (id ∉ working world lst r') as Hlater.
  { intros Hin. apply Hnext. eapply elem_of_sublist; [done|].
    apply working_sublist. lia. }
  split; [done|]. intros Hkey.
  apply (validate_keys (world r')) in Hkey as [Hkey|Hkey]; [| done | apply Hid].
  by apply elem_of_nil in Hkey.
Qed.

(** C7 fails on the code, by the slip of C2: the pop makes the iterator pass
    over the entry that follows, so a repeated identifier keeps an entry the
    round never visited.  With [config.instances = [B, A, A]], [B] a
    stopped preemptible instance and [A] failing to fetch at the initial
    resolution only: [A] is popped at the initial resolution, the initial
    TargetSet is [{B}] and the process goes on; in iteration 1 [A] is still
    in the working list, is in the TargetSet and is started. *)
Theorem C7_dropped_identifier_returns :
  let cfg := Scenario.cfg ["B"; "A"; "A"] None None in
  let world := Scenario.recovering in
  Pop 1 "A" ∈ (resolution world ["B"; "A"; "A"] 0).2
  ∧ PyDict.keys (resolution world ["B"; "A"; "A"] 0).1.2 = ["B"]
  ∧ working world ["B"; "A"; "A"] 1 = ["B"; "A"]
  ∧ PyDict.keys (resolution world ["B"; "A"; "A"] 1).1.2 = ["B"; "A"]
  ∧ (main cfg world 1).2
    = Running {| working_list := ["B"; "A"];
                 last_status_stats := "{'STOPPED': 2}"; loop_closed := true |}
  ∧ count (is_start_of "A") (actions_of (main cfg world 1).1) = 1.
Proof.
  cbv zeta. split; [|repeat split; vm_compute; reflexivity].
  vm_compute. do 4 apply list_elem_of_further. apply list_elem_of_here.
Qed.

(** ** Reconciliation loop *)

Lemma actions_of_Act (l : list action) : actions_of (Act <$> l) = l.
Proof. unfold actions_of. induction l as [|a l IH]; simpl; [done|]. by f_equal. Qed.

Lemma actions_of_app (l k : list event) :
  actions_of (l ++ k) = actions_of l ++ actions_of k.
Proof. unfold actions_of. apply bind_app. Qed.

Lemma count_app {A} (p : A → bool) (l k : list A) :
  count p (l ++ k) = count p l + count p k.
Proof. unfold count. by rewrite filter_app, length_app. Qed.

Lemma count_none {A} (p : A → bool) (l : list A) :
  Forall (λ a, p a = false) l → count p l = 0.
Proof.
  unfold count. induction 1 as [|a l Ha _ IH]; [done|].
  rewrite filter_cons_False; [done|]. by rewrite Ha.
Qed.

Lemma count_Act_gather (l : list action) : count is_gather (Act <$> l) = 0.
Proof. apply count_none, Forall_fmap, Forall_true. done. Qed.

Lemma of_loop_body_false (a : action) :
  of_loop_body a = false →
  is_statistics a = false ∧ is_sleep a = false ∧ is_start a = false.
Proof. unfold of_loop_body. rewrite !orb_false_iff. tauto. Qed.

(** The selectors and the startup make no call of the loop body. *)
Lemma validate_no_loop_body compute fuel i lst d acts :
  Forall (λ a, of_loop_body a = false) acts →
  Forall (λ a, of_loop_body a = false) (validate compute fuel i lst d acts).2.
Proof.
  revert i lst d acts.
  induction fuel as [|fuel IH]; intros i lst d acts Hacts; simpl; [done|].
  destruct (lst !! i) as [instance_id|]; [|done].
  destruct (instance compute instance_id) as [inst|err];
    [destruct (inst_preemptible inst)|];
    apply IH, Forall_app; (split; [done|]); repeat constructor.
Qed.

Lemma get_instances_no_loop_body f cfg compute lst :
  Forall (λ a, of_loop_body a = false) (get_instances f cfg compute lst).2.
Proof.
  destruct f; unfold get_instances.
  - apply validate_no_loop_body. repeat constructor.
  - unfold get_instances_from_yc_folder. simpl. repeat constructor.
Qed.

Lemma startup_no_loop_body cfg :
  Forall (λ a, of_loop_body a = false) (startup cfg).1.
Proof. unfold startup. repeat case_match; simpl; repeat constructor. Qed.

(** A round that finds a stopped instance while the event loop is closed
    raises. *)
Lemma round_closed_loop f cfg compute st :
  loop_closed st = true →
  filter (λ i, inst_stopped i = true)
         (PyDict.values (get_instances f cfg compute (working_list st)).1.2) ≠ [] →
  (round f cfg compute st).2 = Raised RuntimeError.
Proof.
  intros Hclosed Hstopped. unfold round.
  destruct (get_instances f cfg compute (working_list st)) as [[lst all] acts].
  destruct (prep_and_log_statistics all (last_status_stats st)) as [last sacts].
  simpl in Hstopped. rewrite Hclosed.
  by destruct (filter _ (PyDict.values all)).
Qed.

(** A round that dispatches leaves the event loop closed, and no round
    opens it again. *)
Lemma round_dispatch_closes_loop f cfg compute st evs st' :
  round f cfg compute st = (evs, Running st') →
  filter (λ i, inst_stopped i = true)
         (PyDict.values (get_instances f cfg compute (working_list st)).1.2) ≠ [] →
  loop_closed st' = true.
Proof.
  unfold round.
  destruct (get_instances f cfg compute (working_list st)) as [[lst all] acts].
  destruct (prep_and_log_statistics all (last_status_stats st)) as [last sacts].
  simpl. destruct (filter _ (PyDict.values all)); simpl; [done|].
  destruct (loop_closed st); [done|]. by intros [= _ <-].
Qed.

Lemma round_keeps_loop_closed f cfg compute st evs st' :
  round f cfg compute st = (evs, Running st') →
  loop_closed st = true → loop_closed st' = true.
Proof.
  unfold round.
  destruct (get_instances f cfg compute (working_list st)) as [[lst all] acts].
  destruct (prep_and_log_statistics all (last_status_stats st)) as [last sacts].
  destruct (list_truthy _), (loop_closed st); try done.
  by intros [= _ <-].
Qed.

(** The working list of the process after [n] iterations is the one the
    successive resolutions leave. *)
Lemma round_working_list cfg compute st evs st' :
  round from_config cfg compute st = (evs, Running st') →
  working_list st' = (get_instances_from_config compute (working_list st)).1.1.
Proof.
  unfold round, get_instances.
  destruct (get_instances_from_config compute (working_list st)) as [[lst all] acts].
  destruct (prep_and_log_statistics all (last_status_stats st)) as [last sacts].
  destruct (list_truthy _), (loop_closed st); try done; by intros [= _ <-].
Qed.

Lemma rounds_working_list cfg world lst n k st evs st' :
  working_list st = working world lst k →
  rounds from_config cfg world n k st = (evs, Running st') →
  working_list st' = working world lst (n + k).
Proof.
  revert k st evs. induction n as [|n IH]; intros k st evs Hst.
  { simpl. by intros [= _ <-]. }
  replace (S n + k) with (n + S k) by lia. cbn [rounds].
  destruct (round from_config cfg (world k) st) as [e1 [st1| |]] eqn:Hround; [|done..].
  destruct (rounds from_config cfg world n (S k) st1) as [e2 s2] eqn:Hrest.
  intros [= _ ->]. eapply IH; [|done].
  rewrite (round_working_list _ _ _ _ _ Hround), Hst. done.
Qed.

Lemma main_working_list cfg world n st' :
  instances cfg ≠ [] →
  (main cfg world n).2 = Running st' →
  working_list st' = working world (instances cfg) (S n).
Proof.
  intros Hne Hrun. unfold main, startup, initial_state in Hrun.
  cbn [working_list] in Hrun.
  destruct (instances cfg) as [|x l] eqn:Hl; [done|]. cbn [list_truthy] in Hrun.
  destruct (get_instances from_config cfg (world 0) (x :: l))
    as [[lst all] acts] eqn:Hres.
  destruct (list_truthy all); [|done].
  destruct (rounds _ _ _ _ _ _) as [evs s] eqn:Hrounds. simpl in Hrun. subst s.
  apply (rounds_working_list _ _ (x :: l)) in Hrounds.
  - by rewrite Nat.add_1_r in Hrounds.
  - unfold get_instances in Hres. cbn [working working_list]. by rewrite Hres.
Qed.

(** C1 fails on the code: the body of the loop closes the event loop after
    each dispatch ([loop.close()]) and the next dispatch gets the same,
    closed, loop from [asyncio.get_event_loop()].  With one watched instance
    that is found stopped in iterations 1 and 2, iteration 1 completes and
    iteration 2 raises [RuntimeError]; no later iteration is reached. *)
Theorem C1_second_dispatch_raises :
  let cfg := Scenario.cfg ["B"] None None in
  let world : World := λ _, Scenario.all_stopped_but "A" in
  (main cfg world 1).2
  = Running {| working_list := ["B"]; last_status_stats := "{'STOPPED': 1}";
               loop_closed := true |}
  ∧ ∀ n, (main cfg world (S (S n))).2 = Raised RuntimeError.
Proof.
  cbv zeta. split; [vm_compute; reflexivity|].
  intros n. reflexivity.
Qed.

(** C9. When the startup has chosen a selector and the initial resolution
    returns an empty TargetSet, [main] logs that the list is empty and
    exits with code 0, however many iterations it is allowed: the trace is
    that of the startup and of the initial resolution followed by the error
    line, with no statistics line, no sleep, no start call and no gather. *)
Theorem C9_empty_initial_set_exits_cleanly
    (cfg : Config) (world : World) (n : nat) (f : get_instances_func)
    (acts racts : list action) (lst : list string) :
  startup cfg = (acts, Some f) →
  get_instances f cfg (world 0) (instances cfg) = (lst, [], racts) →
  main cfg world n
  = (Act <$> (acts ++ racts ++ [Log ERROR Instance_list_empty]), Exited 0)
  ∧ main cfg world n = main cfg world 0
  ∧ count is_statistics (actions_of (main cfg world n).1) = 0
  ∧ count is_sleep (actions_of (main cfg world n).1) = 0
  ∧ count is_start (actions_of (main cfg world n).1) = 0
  ∧ count is_gather (main cfg world n).1 = 0.
Proof.
  intros Hstart Hres.
  assert (∀ m, main cfg world m
               = (Act <$> (acts ++ racts ++ [Log ERROR Instance_list_empty]), Exited 0))
    as Hmain.
  { intros m. unfold main. rewrite Hstart. simpl. by rewrite Hres. }
  split; [apply Hmain|]. split; [by rewrite !Hmain|].
  rewrite Hmain. simpl. rewrite actions_of_Act, count_Act_gather.
  assert (Forall (λ a, of_loop_body a = false)
                 (acts ++ racts ++ [Log ERROR Instance_list_empty])) as Hq.
  { rewrite !Forall_app. split; [|split; [|by repeat constructor]].
    - pose proof (startup_no_loop_body cfg) as H. by rewrite Hstart in H.
    - pose proof (get_instances_no_loop_body f cfg (world 0) (instances cfg)) as H.
      by rewrite Hres in H. }
  split; [|split; [|split; [|done]]];
    apply count_none; (eapply Forall_impl; [exact Hq|]);
    intros a Ha; apply of_loop_body_false in Ha; tauto.
Qed.

Lemma C9_empty_initial_set_exits_cleanly_witness :
  main (Scenario.cfg ["A"] None None) (λ _, Scenario.all_stopped_but "A") 5
  = (Act <$> ([Log INFO Watchdog_started;
               Log INFO (Conf 15 "get_instances_from_config" None)]
              ++ [Log DEBUG Validating_instances; Api_instance "A";
                  Log ERROR (Fetch_error "not found"); Pop 0 "A"]
              ++ [Log ERROR Instance_list_empty]),
     Exited 0).
Proof.
  apply (C9_empty_initial_set_exits_cleanly (Scenario.cfg ["A"] None None)
           (λ _, Scenario.all_stopped_but "A") 5 from_config
           [Log INFO Watchdog_started;
            Log INFO (Conf 15 "get_instances_from_config" None)]
           [Log DEBUG Validating_instances; Api_instance "A";
            Log ERROR (Fetch_error "not found"); Pop 0 "A"] []);
    reflexivity.
Defined.

(** C10. A round of the loop whose resolution returns an empty TargetSet
    does not end the process: it logs the statistics [{}] when they differ
    from the retained string, makes no start call and gathers nothing,
    sleeps for the configured interval and hands its state to the next
    round. *)
Theorem C10_empty_round_goes_on
    (f : get_instances_func) (cfg : Config) (compute : ComputeClient)
    (st : State) (lst : list string) (acts : list action) :
  get_instances f cfg compute (working_list st) = (lst, [], acts) →
  let logged := if decide (last_status_stats st = "{}") then []
                else [Log INFO (VM_statistics "{}")] in
  let st' := {| working_list := lst; last_status_stats := "{}";
                loop_closed := loop_closed st |} in
  round f cfg compute st
  = ((Act <$> (acts ++ logged)) ++ [Act (Sleep (interval cfg))], Running st')
  ∧ count is_start (actions_of (round f cfg compute st).1) = 0
  ∧ count is_gather (round f cfg compute st).1 = 0
  ∧ ∀ (world : World) n k,
      world k = compute →
      rounds f cfg world (S n) k st
      = ((round f cfg compute st).1 ++ (rounds f cfg world n (S k) st').1,
         (rounds f cfg world n (S k) st').2).
Proof.
  intros Hres. cbv zeta.
  assert (round f cfg compute st
          = ((Act <$> (acts ++ (if decide (last_status_stats st = "{}") then []
                                else [Log INFO (VM_statistics "{}")])))
               ++ [Act (Sleep (interval cfg))],
             Running {| working_list := lst; last_status_stats := "{}";
                        loop_closed := loop_closed st |})) as Hround.
  { unfold round. rewrite Hres. unfold prep_and_log_statistics.
    change (PyRepr.str_dict (status_histogram [])) with "{}".
    simpl. repeat case_decide; try done; simpl; congruence. }
  split; [done|]. rewrite Hround. simpl. split; [|split].
  - rewrite actions_of_app, actions_of_Act, count_app. simpl.
    rewrite Nat.add_0_r. apply count_none, Forall_app. split.
    + pose proof (get_instances_no_loop_body f cfg compute (working_list st)) as H.
      rewrite Hres in H. eapply Forall_impl; [exact H|].
      intros a Ha. apply of_loop_body_false in Ha. tauto.
    + case_decide; repeat constructor.
  - rewrite count_app, count_Act_gather. done.
  - intros world n k Hk. simpl. rewrite Hk, Hround.
    by destruct (rounds f cfg world n (S k) _).
Qed.

Lemma C10_empty_round_goes_on_witness :
  round from_yc_folder (Scenario.cfg [] (Some "keep_vm_up") None) Scenario.empty_cloud
        {| working_list := []; last_status_stats := "{'STOPPED': 1}";
           loop_closed := true |}
  = ((Act <$> ([Api_instances_in_folder (Some "b1gafdpppaiaiu2a4444")]
               ++ [Log INFO (VM_statistics "{}")])) ++ [Act (Sleep 15)],
     Running {| working_list := []; last_status_stats := "{}"; loop_closed := true |}).
Proof.
  apply (C10_empty_round_goes_on from_yc_folder (Scenario.cfg [] (Some "keep_vm_up") None)
           Scenario.empty_cloud
           {| working_list := []; last_status_stats := "{'STOPPED': 1}";
              loop_closed := true |} []).
  reflexivity.
Defined.

(** * Further properties of the code *)

(** ** More facts about dicts *)

Section dict_more.
Context {V : Type}.
Implicit Types (d : list (string * V)) (k : string) (v : V).

Lemma get_set_eq k v d : PyDict.get k (PyDict.set k v d) = Some v.
Proof.
  induction d as [|[k' v'] d IH]; simpl.
  - by rewrite decide_True.
  - case_decide as Hk; simpl; [subst; by rewrite decide_True|].
    by rewrite decide_False.
Qed.

Lemma get_set_ne k k' v d : k ≠ k' → PyDict.get k' (PyDict.set k v d) = PyDict.get k' d.
Proof.
  intros Hne. induction d as [|[k0 v0] d IH]; simpl.
  - rewrite decide_False; [done|]. congruence.
  - case_decide as Hk; simpl; [subst|].
    + rewrite !decide_False; [done|congruence..].
    + case_decide; [done|apply IH].
Qed.

Lemma keys_set_NoDup k v d :
  NoDup (PyDict.keys d) → NoDup (PyDict.keys (PyDict.set k v d)).
Proof.
  unfold PyDict.keys. induction d as [|[k' v'] d IH]; simpl; intros Hd.
  - apply NoDup_singleton.
  - apply NoDup_cons in Hd as [Hk' Hd].
    case_decide as Hk; simpl; apply NoDup_cons; [done|].
    split; [|by apply IH]. intros Hin.
    apply (keys_set k v d k') in Hin as [->|Hin]; done.
Qed.

Lemma set_Forall (P : string * V → Prop) k v d :
  P (k, v) → Forall P d → Forall P (PyDict.set k v d).
Proof.
  intros Hv. induction d as [|[k' v'] d IH]; simpl; intros Hd.
  - by repeat constructor.
  - apply Forall_cons in Hd as [Hx Hd].
    case_decide; simpl; apply Forall_cons; (split; [|auto]); [by subst|done].
Qed.

Lemma of_pairs_snoc (l : list (string * V)) k v :
  PyDict.of_pairs (l ++ [(k, v)]) = PyDict.set k v (PyDict.of_pairs l).
Proof. unfold PyDict.of_pairs. by rewrite foldl_app. Qed.
End dict_more.

(** ** The validation loop of the explicit list *)

Section validate_more.
Variable compute : ComputeClient.

(** Fetches [f] and pops [p] made by the loop from position [i] on. *)
Lemma validate_counts fuel i lst d acts :
  length lst - i ≤ fuel →
  ∃ f p,
    count is_fetch (validate compute fuel i lst d acts).2 = count is_fetch acts + f
    ∧ count is_pop (validate compute fuel i lst d acts).2 = count is_pop acts + p
    ∧ length (validate compute fuel i lst d acts).1.1 + p = length lst
    ∧ p ≤ f ∧ f ≤ length lst - i ∧ length lst - i ≤ f + p.
Proof.
  revert i lst d acts.
  induction fuel as [|fuel IH]; intros i lst d acts Hfuel; simpl.
  { exists 0, 0. split_and!; lia. }
  destruct (lst !! i) as [instance_id|] eqn:Hi.
  2:{ apply lookup_ge_None in Hi. exists 0, 0. simpl. split_and!; lia. }
  pose proof (lookup_lt_Some _ _ _ Hi) as Hlt.
  assert (length (delete i lst) = length lst - 1) as Hdel
    by (apply length_delete; eauto).
  destruct (instance compute instance_id) as [inst|err];
    [destruct (inst_preemptible inst)|].
  - destruct (IH (S i) lst (PyDict.set (inst_id inst) inst d)
                (acts ++ [Api_instance instance_id])) as (f & p & Hf & Hp & Hl & ?);
      [lia|].
    rewrite count_app in Hf, Hp.
    change (count is_fetch [Api_instance instance_id]) with 1 in Hf.
    change (count is_pop [Api_instance instance_id]) with 0 in Hp.
    exists (S f), p. split_and!; lia.
  - match goal with |- context [validate compute fuel (S i) (delete i lst) d ?a] =>
      destruct (IH (S i) (delete i lst) d a) as (f & p & Hf & Hp & Hl & ?); [lia|]
    end.
    rewrite count_app in Hf, Hp.
    change (count is_fetch [_; _; _]) with 1 in Hf.
    change (count is_pop [_; _; _]) with 1 in Hp.
    exists (S f), (S p). split_and!; lia.
  - match goal with |- context [validate compute fuel (S i) (delete i lst) d ?a] =>
      destruct (IH (S i) (delete i lst) d a) as (f & p & Hf & Hp & Hl & ?); [lia|]
    end.
    rewrite count_app in Hf, Hp.
    change (count is_fetch [_; _; _]) with 1 in Hf.
    change (count is_pop [_; _; _]) with 1 in Hp.
    exists (S f), (S p). split_and!; lia.
Qed.

(** Every pop is of an identifier of the list whose fetch raised or gave a
    non-preemptible instance. *)
Lemma validate_pops_justified L fuel i lst d acts :
  lst ⊆ L →
  Forall (pop_justified compute L) acts →
  Forall (pop_justified compute L) (validate compute fuel i lst d acts).2.
Proof.
  revert i lst d acts.
  induction fuel as [|fuel IH]; intros i lst d acts HL Hacts; simpl; [done|].
  destruct (lst !! i) as [instance_id|] eqn:Hi; [|done].
  assert (instance_id ∈ L) as Hin by (by eapply HL, list_elem_of_lookup_2).
  assert (delete i lst ⊆ L) as HL'.
  { intros x Hx. by eapply HL, list_elem_of_delete_inv. }
  destruct (instance compute instance_id) as [inst|err] eqn:Hf;
    [destruct (inst_preemptible inst) eqn:Hp|].
  - apply IH; [done|]. apply Forall_app. split; [done|]. by repeat constructor.
  - apply IH; [done|]. apply Forall_app. split; [done|].
    repeat constructor; try done. unfold droppable. by rewrite Hf, Hp.
  - apply IH; [done|]. apply Forall_app. split; [done|].
    repeat constructor; try done. unfold droppable. by rewrite Hf.
Qed.

(** When nothing is droppable the loop visits every identifier in turn and
    leaves the list alone. *)
Lemma validate_all_kept fuel i lst d acts :
  length lst - i ≤ fuel →
  Forall (λ id, droppable compute id = false) lst →
  validate compute fuel i lst d acts
  = (lst,
     foldl (λ d kv, PyDict.set kv.1 kv.2 d) d (omap (fetched_item compute) (drop i lst)),
     acts ++ (Api_instance <$> drop i lst)).
Proof.
  intros Hfuel Hgood. revert i d acts Hfuel.
  induction fuel as [|fuel IH]; intros i d acts Hfuel; simpl.
  { rewrite drop_ge by lia. simpl. by rewrite app_nil_r. }
  destruct (lst !! i) as [instance_id|] eqn:Hi.
  2:{ apply lookup_ge_None in Hi. rewrite drop_ge by lia. simpl. by rewrite app_nil_r. }
  rewrite (drop_S _ _ _ Hi). simpl.
  assert (droppable compute instance_id = false) as Hd.
  { rewrite Forall_forall in Hgood. by eapply Hgood, list_elem_of_lookup_2. }
  unfold droppable in Hd. unfold fetched_item at 1.
  destruct (instance compute instance_id) as [inst|err]; [|done].
  destruct (inst_preemptible inst); [|done].
  rewrite IH by lia. by rewrite <-app_assoc.
Qed.
End validate_more.

(** X1. The validation loop only ever shortens [config.instances]: the list
    it leaves is a sublist of the one it found (same order, nothing added),
    and it is shorter by exactly the number of pops. *)
Theorem X1_working_list_only_shrinks (compute : ComputeClient) (lst : list string) :
  (get_instances_from_config compute lst).1.1 `sublist_of` lst
  ∧ length (get_instances_from_config compute lst).1.1
    + count is_pop (get_instances_from_config compute lst).2
    = length lst.
Proof.
  split; [apply validate_sublist|].
  destruct (validate_counts compute (length lst) 0 lst []
              [Log DEBUG Validating_instances]) as (f & p & _ & Hp & Hl & _); [lia|].
  unfold get_instances_from_config. rewrite Hp.
  change (count is_pop [Log DEBUG Validating_instances]) with 0. lia.
Qed.

(** X2. The validation loop pops an identifier only for cause: every pop in
    its trace is of an identifier of the list it was given whose fetch
    raised or returned an instance that is not preemptible. *)
Theorem X2_pops_are_justified (compute : ComputeClient) (lst : list string) :
  Forall (λ a, match a with
               | Pop _ id => droppable compute id = true ∧ id ∈ lst
               | _ => True
               end)
         (get_instances_from_config compute lst).2.
Proof.
  apply (validate_pops_justified compute lst); [done|]. by repeat constructor.
Qed.

(** X3. When every identifier of the list fetches a preemptible instance,
    one resolution fetches each identifier once, in order, pops nothing,
    leaves the list as it is and returns the dict of the fetched instances
    under their own identifiers. *)
Theorem X3_valid_list_is_kept (compute : ComputeClient) (lst : list string) :
  Forall (λ id, droppable compute id = false) lst →
  get_instances_from_config compute lst
  = (lst,
     PyDict.of_pairs (omap (fetched_item compute) lst),
     Log DEBUG Validating_instances :: (Api_instance <$> lst)).
Proof.
  intros Hgood. unfold get_instances_from_config.
  rewrite validate_all_kept by (done || lia). by rewrite drop_0.
Qed.

Lemma X3_valid_list_is_kept_witness :
  Forall (λ id, droppable (Scenario.all_stopped_but "A") id = false) ["B"; "C"]
  ∧ (get_instances_from_config (Scenario.all_stopped_but "A") ["B"; "C"]).1.1
    = ["B"; "C"].
Proof.
  assert (Forall (λ id, droppable (Scenario.all_stopped_but "A") id = false) ["B"; "C"])
    as H by (repeat constructor).
  split; [exact H|].
  by rewrite (X3_valid_list_is_kept (Scenario.all_stopped_but "A") ["B"; "C"] H).
Defined.

(** X4. Each pop makes the loop pass over at most one identifier: the
    number of fetches of one resolution is at most the length of the list it
    was given and at least that length less the number of pops; and there is
    a fetch for every pop. *)
Theorem X4_fetches_and_pops (compute : ComputeClient) (lst : list string) :
  let r := get_instances_from_config compute lst in
  count is_fetch r.2 ≤ length lst
  ∧ length lst ≤ count is_fetch r.2 + count is_pop r.2
  ∧ count is_pop r.2 ≤ count is_fetch r.2.
Proof.
  cbv zeta.
  destruct (validate_counts compute (length lst) 0 lst []
              [Log DEBUG Validating_instances]) as (f & p & Hf & Hp & _ & ? & ? & ?);
    [lia|].
  unfold get_instances_from_config. rewrite Hf, Hp.
  change (count is_fetch [Log DEBUG Validating_instances]) with 0.
  change (count is_pop [Log DEBUG Validating_instances]) with 0. lia.
Qed.

(** ** Shape of a TargetSet *)

Lemma set_well_keyed (x : ComputeInstance) (d : TargetSet) :
  well_keyed d → well_keyed (PyDict.set (inst_id x) x d).
Proof.
  intros [Hnd Hk]. split; [by apply keys_set_NoDup|]. by apply set_Forall.
Qed.

Lemma target_set_of_well_keyed (l : list ComputeInstance) : well_keyed (target_set_of l).
Proof.
  unfold target_set_of. induction l as [|x l IH] using rev_ind.
  - split; [apply NoDup_nil_2|constructor].
  - rewrite fmap_app. simpl. rewrite of_pairs_snoc. by apply set_well_keyed.
Qed.

Lemma validate_well_keyed compute fuel i lst d acts :
  well_keyed d → well_keyed (validate compute fuel i lst d acts).1.2.
Proof.
  revert i lst d acts.
  induction fuel as [|fuel IH]; intros i lst d acts Hd; simpl; [done|].
  destruct (lst !! i) as [instance_id|]; [|done].
  destruct (instance compute instance_id) as [inst|err]; [|by apply IH].
  destruct (inst_preemptible inst); [|by apply IH].
  by apply IH, set_well_keyed.
Qed.

Lemma get_instances_well_keyed f cfg compute lst :
  well_keyed (get_instances f cfg compute lst).1.2.
Proof.
  destruct f; unfold get_instances.
  - apply validate_well_keyed. split; [apply NoDup_nil_2|constructor].
  - unfold get_instances_from_yc_folder. simpl. apply target_set_of_well_keyed.
Qed.

Lemma get_instances_preemptible f cfg compute lst :
  Forall (λ i, inst_preemptible i = true)
         (PyDict.values (get_instances f cfg compute lst).1.2).
Proof.
  destruct f; unfold get_instances.
  - apply validate_preemptible. constructor.
  - pose proof (yc_folder_preemptible compute cfg) as H.
    by destruct (get_instances_from_yc_folder compute cfg) as [ts acts].
Qed.

(** In a well keyed TargetSet the instances have pairwise distinct
    identifiers and each sits under its own identifier. *)
Lemma well_keyed_ids (ts : TargetSet) :
  well_keyed ts → inst_id <$> PyDict.values ts = PyDict.keys ts.
Proof.
  intros [_ Hk]. unfold PyDict.values, PyDict.keys.
  induction Hk as [|[k x] ts Hx _ IH]; simpl; [done|]. simpl in Hx. by f_equal.
Qed.

Lemma well_keyed_member (ts : TargetSet) (x : ComputeInstance) :
  well_keyed ts → x ∈ PyDict.values ts → (inst_id x, x) ∈ ts.
Proof.
  intros [_ Hk] Hx. unfold PyDict.values in Hx.
  apply list_elem_of_fmap in Hx as ([k y] & -> & Hin).
  rewrite Forall_forall in Hk. specialize (Hk _ Hin). simpl in *. by subst.
Qed.

(** X5. Whichever selector runs, the TargetSet it returns holds every
    instance under the instance's own identifier and holds no identifier
    twice, so its instances have pairwise distinct identifiers. *)
Theorem X5_target_set_is_keyed_by_id
    (f : get_instances_func) (cfg : Config) (compute : ComputeClient)
    (lst : list string) :
  let ts := (get_instances f cfg compute lst).1.2 in
  Forall (λ kv, kv.1 = inst_id kv.2) ts
  ∧ NoDup (PyDict.keys ts)
  ∧ NoDup (inst_id <$> PyDict.values ts).
Proof.
  cbv zeta. pose proof (get_instances_well_keyed f cfg compute lst) as Hwk.
  split; [apply Hwk|]. split; [apply Hwk|].
  rewrite well_keyed_ids by done. apply Hwk.
Qed.

(** ** Dispatcher *)

Lemma outcome_start_instance_any compute (x : ComputeInstance) :
  outcome (start_instance compute x) = Some (outcome_for compute x).
Proof.
  unfold start_instance, outcome_for.
  destruct (inst_stopped x); [|done]. by destruct (start compute x).
Qed.

Lemma starts_of_task compute (x : ComputeInstance) :
  count is_start (start_instance compute x) = if inst_stopped x then 1 else 0.
Proof.
  unfold start_instance. destruct (inst_stopped x); [|done].
  by destruct (start compute x).
Qed.

Lemma starts_of_tasks compute (l : list ComputeInstance) :
  count is_start (concat (start_instance compute <$> l))
  = length (filter (λ x, inst_stopped x = true) l).
Proof.
  induction l as [|x l IH]; [done|].
  change (concat (start_instance compute <$> x :: l))
    with (start_instance compute x ++ concat (start_instance compute <$> l)).
  rewrite count_app, IH, starts_of_task, filter_cons.
  destruct (inst_stopped x); [by rewrite decide_True|by rewrite decide_False].
Qed.

(** X7. Dispatching any list of instances makes one start call for each
    stopped instance and none for the others: an instance that is not
    stopped gets the outcome [Skipped] from a single debug line, a stopped
    one [Started] or [Failed] as its own start call returns or raises; there
    is one outcome per instance, in the order of the list. *)
Theorem X7_start_calls_only_for_stopped
    (compute : ComputeClient) (l : list ComputeInstance) :
  count is_start (actions_of (prepare_start_tasks compute l))
  = length (filter (λ x, inst_stopped x = true) l)
  ∧ dispatch_outcomes (prepare_start_tasks compute l)
    = (λ x, Some (outcome_for compute x)) <$> l
  ∧ Forall (λ x, inst_stopped x = false →
                 start_instance compute x
                 = [Log DEBUG (Unsuitable_state (inst_status x))]) l.
Proof.
  split; [|split].
  - unfold prepare_start_tasks, actions_of. simpl. rewrite app_nil_r.
    change (count is_start (Log DEBUG (Created_tasks (length l))
                            :: concat (start_instance compute <$> l)))
      with (count is_start (concat (start_instance compute <$> l))).
    apply starts_of_tasks.
  - rewrite dispatch_outcomes_tasks, <-list_fmap_compose.
    apply list_fmap_ext. intros _ x _. apply outcome_start_instance_any.
  - apply Forall_forall. intros x _ Hx. unfold start_instance. by rewrite Hx.
Qed.

(** ** Status aggregator *)

Lemma with_status_snoc s (l : list ComputeInstance) x :
  with_status s (l ++ [x])
  = with_status s l + (if decide (inst_status x = s) then 1 else 0).
Proof.
  unfold with_status. rewrite filter_app, length_app. f_equal.
  rewrite filter_cons. by case_decide.
Qed.

Lemma histogram_counts (l : list ComputeInstance) (s : string) :
  PyDict.get s (foldl count_status [] l)
  = if decide (with_status s l = 0) then None else Some (with_status s l).
Proof.
  induction l as [|x l IH] using rev_ind; [done|].
  rewrite foldl_app, with_status_snoc. simpl. unfold count_status at 1.
  destruct (decide (inst_status x = s)) as [->|Hne].
  - rewrite get_set_eq, IH. repeat case_decide; simpl; try lia; f_equal; lia.
  - rewrite get_set_ne, IH by done. by rewrite Nat.add_0_r.
Qed.

Lemma histogram_keys_NoDup (l : list ComputeInstance) :
  NoDup (PyDict.keys (foldl count_status [] l)).
Proof.
  induction l as [|x l IH] using rev_ind; [apply NoDup_nil_2|].
  rewrite foldl_app. simpl. by apply keys_set_NoDup.
Qed.

(** X8. The histogram built by [prep_and_log_statistics] has one entry per
    status that occurs, and the entry of a status is the number of
    instances of the TargetSet with that status; a status that does not
    occur has no entry. *)
Theorem X8_histogram_counts_instances (instances : TargetSet) (s : string) :
  PyDict.get s (status_histogram instances)
  = (if decide (with_status s (PyDict.values instances) = 0) then None
     else Some (with_status s (PyDict.values instances)))
  ∧ NoDup (PyDict.keys (status_histogram instances)).
Proof. split; [apply histogram_counts|apply histogram_keys_NoDup]. Qed.

(** ** Label filters *)

(** X9. With no go value in effect and a non-empty no-go value [Y], the
    folder selector keeps the preemptible instances of the scope whose label
    is not [Y], those without the label included. *)
Theorem X9_no_go_value_is_a_deny_list
    (compute : ComputeClient) (cfg : Config) (go : option string) (Y : string) :
  truthy go = false →
  Y ≠ EmptyString →
  (get_instances_from_yc_folder compute (with_labels cfg go (Some Y))).1
  = deny_list compute cfg Y.
Proof.
  intros Hgo HY. apply truthy_nonempty in HY.
  unfold get_instances_from_yc_folder, deny_list, target_set_of.
  cbn [with_labels label_go_value label_no_go_value label_name folder_id fst].
  rewrite Hgo, HY. do 2 f_equal.
  rewrite list_filter_filter. apply list_filter_iff.
  intros i. unfold label_is. simpl.
  rewrite negb_true_iff, bool_decide_eq_false. tauto.
Qed.

Lemma X9_no_go_value_is_a_deny_list_witness :
  truthy None = false
  ∧ "let_vm_stop" ≠ EmptyString
  ∧ PyDict.keys (get_instances_from_yc_folder Scenario.labelled_folder
       (with_labels (Scenario.cfg [] None None) None (Some "let_vm_stop"))).1
    = ["y"].
Proof.
  split; [reflexivity|]. split; [discriminate|].
  rewrite (X9_no_go_value_is_a_deny_list Scenario.labelled_folder
             (Scenario.cfg [] None None) None "let_vm_stop" eq_refl);
    [reflexivity|discriminate].
Defined.

(** ** One round of the loop *)

(** The three ways through the body of the loop. *)
Lemma round_cases f cfg compute st :
  ∃ lst all acts last sacts,
    get_instances f cfg compute (working_list st) = (lst, all, acts)
    ∧ prep_and_log_statistics all (last_status_stats st) = (last, sacts)
    ∧ let stopped := filter (λ i, inst_stopped i = true) (PyDict.values all) in
      (stopped = []
       ∧ round f cfg compute st
         = ((Act <$> (acts ++ sacts)) ++ [Act (Sleep (interval cfg))],
            Running {| working_list := lst; last_status_stats := last;
                       loop_closed := loop_closed st |}))
      ∨ (stopped ≠ [] ∧ loop_closed st = true
         ∧ round f cfg compute st
           = ((Act <$> (acts ++ sacts))
                ++ [Act (Log DEBUG Preparing_tasks);
                    Act (Log DEBUG (Created_tasks (length stopped)))],
              Raised RuntimeError))
      ∨ (stopped ≠ [] ∧ loop_closed st = false
         ∧ round f cfg compute st
           = ((Act <$> (acts ++ sacts))
                ++ [Act (Log DEBUG Preparing_tasks);
                    Act (Log DEBUG (Created_tasks (length stopped)));
                    Gather (start_instance compute <$> stopped);
                    Act (Log DEBUG Tasks_completed);
                    Act (Sleep (interval cfg))],
              Running {| working_list := lst; last_status_stats := last;
                         loop_closed := true |})).
Proof.
  unfold round.
  destruct (get_instances f cfg compute (working_list st)) as [[lst all] acts] eqn:Hres.
  destruct (prep_and_log_statistics all (last_status_stats st)) as [last sacts] eqn:Hprep.
  exists lst, all, acts, last, sacts. split; [done|]. split; [done|]. cbv zeta.
  destruct (filter _ (PyDict.values all)) as [|x l]; simpl; [by left|].
  right. destruct (loop_closed st); [left|right]; done.
Qed.

Lemma prep_logs (instances : TargetSet) (last : string) :
  (prep_and_log_statistics instances last).2 = []
  ∨ ∃ stats, (prep_and_log_statistics instances last).2 = [Log INFO (VM_statistics stats)].
Proof. unfold prep_and_log_statistics. case_decide; simpl; eauto. Qed.

Lemma count_actions_prefix (p : action → bool) (l : list action) (evs : list event) :
  count p (actions_of ((Act <$> l) ++ evs)) = count p l + count p (actions_of evs).
Proof. by rewrite actions_of_app, actions_of_Act, count_app. Qed.

Lemma NoDup_fmap_filter {A B} (g : A → B) (P : A → Prop) `{!∀ x, Decision (P x)}
    (l : list A) :
  NoDup (g <$> l) → NoDup (g <$> filter P l).
Proof.
  induction l as [|x l IH]; [done|]. rewrite fmap_cons, NoDup_cons.
  intros [Hx Hl]. rewrite filter_cons. case_decide; [|by apply IH].
  rewrite fmap_cons, NoDup_cons. split; [|by apply IH].
  intros Hin. apply Hx. apply list_elem_of_fmap in Hin as (y & -> & Hy).
  apply list_elem_of_fmap. exists y. split; [done|].
  by apply list_elem_of_filter in Hy as [_ Hy].
Qed.

Lemma elem_of_concat {A} (x : A) (ls : list (list A)) :
  x ∈ concat ls → ∃ l, x ∈ l ∧ l ∈ ls.
Proof.
  induction ls as [|l ls IH]; simpl; [by intros ?%elem_of_nil|].
  rewrite elem_of_app. intros [Hx|Hx].
  - exists l. split; [done|apply list_elem_of_here].
  - destruct (IH Hx) as (l' & ? & ?). exists l'. split; [done|].
    by apply list_elem_of_further.
Qed.

Lemma start_instance_start compute (y : ComputeInstance) (id : string) :
  Api_start id ∈ start_instance compute y → id = inst_id y ∧ inst_stopped y = true.
Proof.
  unfold start_instance. destruct (inst_stopped y).
  - destruct (start compute y); simpl; rewrite !elem_of_cons, elem_of_nil;
      intros [?|[?|[?|[]]]]; simplify_eq; done.
  - rewrite list_elem_of_singleton. discriminate.
Qed.

Lemma starts_of_id_task compute (id : string) (x : ComputeInstance) :
  count (is_start_of id) (start_instance compute x)
  = if inst_stopped x && bool_decide (id = inst_id x) then 1 else 0.
Proof.
  unfold start_instance. destruct (inst_stopped x); [|done].
  destruct (start compute x); unfold count; simpl;
    rewrite !filter_cons; simpl;
    destruct (bool_decide (id = inst_id x)); simpl; done.
Qed.

Lemma starts_of_id compute (id : string) (l : list ComputeInstance) :
  NoDup (inst_id <$> l) →
  count (is_start_of id) (concat (start_instance compute <$> l)) ≤ 1.
Proof.
  induction l as [|x l IH]; [simpl; unfold count; simpl; lia|].
  rewrite fmap_cons, NoDup_cons. intros [Hx Hl].
  change (concat (start_instance compute <$> x :: l))
    with (start_instance compute x ++ concat (start_instance compute <$> l)).
  rewrite count_app, starts_of_id_task.
  destruct (inst_stopped x && bool_decide (id = inst_id x)) eqn:Hb;
    [|by apply IH].
  apply andb_true_iff in Hb as [_ ->%bool_decide_eq_true].
  assert (count (is_start_of (inst_id x))
                (concat (start_instance compute <$> l)) = 0) as ->; [|lia].
  apply count_none, Forall_forall. intros a Ha.
  apply elem_of_concat in Ha as (t & Ha & Ht).
  apply list_elem_of_fmap in Ht as (y & -> & Hy).
  destruct a; try done. simpl. apply bool_decide_eq_false. intros Heq.
  apply Hx. apply list_elem_of_fmap. exists y. split; [|done].
  apply start_instance_start in Ha as [-> _]. done.
Qed.

(** X6. In one round, every start call is for a stopped, preemptible
    instance of the TargetSet resolved in that round, and no identifier is
    started twice. *)
Theorem X6_round_starts_each_stopped_target_once
    (f : get_instances_func) (cfg : Config) (compute : ComputeClient) (st : State) :
  let ts := (get_instances f cfg compute (working_list st)).1.2 in
  let trace := actions_of (round f cfg compute st).1 in
  Forall (start_justified ts) trace
  ∧ ∀ id, count (is_start_of id) trace ≤ 1.
Proof.
  cbv zeta.
  pose proof (get_instances_no_loop_body f cfg compute (working_list st)) as Hquiet.
  pose proof (get_instances_well_keyed f cfg compute (working_list st)) as Hwk.
  pose proof (get_instances_preemptible f cfg compute (working_list st)) as Hpre.
  destruct (round_cases f cfg compute st)
    as (lst & all & acts & last & sacts & Hres & Hprep & Hcases).
  rewrite Hres in *. simpl in Hquiet, Hwk, Hpre. simpl.
  pose proof (prep_logs all (last_status_stats st)) as Hlogs. rewrite Hprep in Hlogs.
  simpl in Hlogs.
  assert (Forall (λ a, is_start a = false) (acts ++ sacts)) as Hnone.
  { apply Forall_app. split.
    - eapply Forall_impl; [exact Hquiet|].
      intros a Ha. apply of_loop_body_false in Ha. tauto.
    - destruct Hlogs as [->|[stats ->]]; by repeat constructor. }
  assert (Forall (start_justified all) (acts ++ sacts)) as Hjust.
  { eapply Forall_impl; [exact Hnone|]. by intros []. }
  assert (∀ id, count (is_start_of id) (acts ++ sacts) = 0) as Hzero.
  { intros id. apply count_none. eapply Forall_impl; [exact Hnone|]. by intros []. }
  cbv zeta in Hcases.
  destruct Hcases as [[_ ->]|[(_ & _ & ->)|(_ & _ & ->)]]; simpl.
  - rewrite actions_of_app, actions_of_Act. split.
    + apply Forall_app. split; [done|]. by repeat constructor.
    + intros id. rewrite count_app, Hzero. unfold count. simpl. lia.
  - rewrite actions_of_app, actions_of_Act. split.
    + apply Forall_app. split; [done|]. by repeat constructor.
    + intros id. rewrite count_app, Hzero. unfold count. simpl. lia.
  - rewrite actions_of_app, actions_of_Act.
    set (stopped := filter (λ i, inst_stopped i = true) (PyDict.values all)).
    change (actions_of [Act (Log DEBUG Preparing_tasks);
                        Act (Log DEBUG (Created_tasks (length stopped)));
                        Gather (start_instance compute <$> stopped);
                        Act (Log DEBUG Tasks_completed);
                        Act (Sleep (interval cfg))])
      with ([Log DEBUG Preparing_tasks; Log DEBUG (Created_tasks (length stopped))]
            ++ concat (start_instance compute <$> stopped)
            ++ [Log DEBUG Tasks_completed; Sleep (interval cfg)]).
    split.
    + apply Forall_app. split; [done|].
      apply Forall_app. split; [by repeat constructor|].
      apply Forall_app. split; [|by repeat constructor].
      apply Forall_forall. intros a Ha.
      apply elem_of_concat in Ha as (t & Ha & Ht).
      apply list_elem_of_fmap in Ht as (x & -> & Hx).
      apply list_elem_of_filter in Hx as [Hstop Hx].
      destruct a; try done. simpl.
      apply start_instance_start in Ha as [-> _].
      exists x. split; [by apply well_keyed_member|]. split; [done|].
      rewrite Forall_forall in Hpre. by apply Hpre.
    + intros id. rewrite count_app, Hzero, !count_app.
      pose proof (starts_of_id compute id stopped) as Hle.
      change (count (is_start_of id)
                [Log DEBUG Preparing_tasks; Log DEBUG (Created_tasks (length stopped))])
        with 0.
      change (count (is_start_of id) [Log DEBUG Tasks_completed; Sleep (interval cfg)])
        with 0.
      rewrite Nat.add_0_r. simpl. apply Hle.
      apply NoDup_fmap_filter. rewrite well_keyed_ids by done. apply Hwk.
Qed.

(** ** Several rounds *)

Lemma start_instance_Forall (P : action → Prop) compute (x : ComputeInstance) :
  (∀ lvl m, P (Log lvl m)) → (∀ id, P (Api_start id)) →
  Forall P (start_instance compute x).
Proof.
  intros Hlog Hstart. unfold start_instance.
  destruct (inst_stopped x); [destruct (start compute x)|]; by repeat constructor.
Qed.

Lemma tasks_Forall (P : action → Prop) compute (l : list ComputeInstance) :
  (∀ lvl m, P (Log lvl m)) → (∀ id, P (Api_start id)) →
  Forall P (concat (start_instance compute <$> l)).
Proof.
  intros Hlog Hstart. induction l as [|x l IH]; [constructor|].
  change (concat (start_instance compute <$> x :: l))
    with (start_instance compute x ++ concat (start_instance compute <$> l)).
  apply Forall_app. split; [by apply start_instance_Forall|done].
Qed.

(** What holds of the selector's calls, of every log line, of every start
    call and of the sleep holds of the whole trace of a round. *)
Lemma round_trace_Forall (P : action → Prop) f cfg compute st :
  Forall P (get_instances f cfg compute (working_list st)).2 →
  (∀ lvl m, P (Log lvl m)) → (∀ id, P (Api_start id)) → P (Sleep (interval cfg)) →
  Forall P (actions_of (round f cfg compute st).1).
Proof.
  intros Hacts Hlog Hstart Hsleep.
  destruct (round_cases f cfg compute st)
    as (lst & all & acts & last & sacts & Hres & Hprep & Hcases).
  rewrite Hres in Hacts. simpl in Hacts.
  pose proof (prep_logs all (last_status_stats st)) as Hlogs. rewrite Hprep in Hlogs.
  simpl in Hlogs.
  assert (Forall P (acts ++ sacts)) as Hpre.
  { apply Forall_app. split; [done|].
    destruct Hlogs as [->|[stats ->]]; by repeat constructor. }
  cbv zeta in Hcases.
  destruct Hcases as [[_ ->]|[(_ & _ & ->)|(_ & _ & ->)]]; simpl;
    rewrite actions_of_app, actions_of_Act; apply Forall_app; (split; [done|]).
  - by repeat constructor.
  - by repeat constructor.
  - set (stopped := filter (λ i, inst_stopped i = true) (PyDict.values all)).
    change (actions_of [Act (Log DEBUG Preparing_tasks);
                        Act (Log DEBUG (Created_tasks (length stopped)));
                        Gather (start_instance compute <$> stopped);
                        Act (Log DEBUG Tasks_completed);
                        Act (Sleep (interval cfg))])
      with ([Log DEBUG Preparing_tasks; Log DEBUG (Created_tasks (length stopped))]
            ++ concat (start_instance compute <$> stopped)
            ++ [Log DEBUG Tasks_completed; Sleep (interval cfg)]).
    apply Forall_app. split; [by repeat constructor|].
    apply Forall_app. split; [by apply tasks_Forall|by repeat constructor].
Qed.

Lemma rounds_trace_Forall (P : action → Prop) f cfg (world : World) n k st :
  (∀ compute lst, Forall P (get_instances f cfg compute lst).2) →
  (∀ lvl m, P (Log lvl m)) → (∀ id, P (Api_start id)) → P (Sleep (interval cfg)) →
  Forall P (actions_of (rounds f cfg world n k st).1).
Proof.
  intros Hacts Hlog Hstart Hsleep. revert k st.
  induction n as [|n IH]; intros k st; simpl; [constructor|].
  pose proof (round_trace_Forall P f cfg (world k) st (Hacts _ _) Hlog Hstart Hsleep)
    as Hround.
  destruct (round f cfg (world k) st) as [e1 [st1| |]]; [|done..].
  specialize (IH (S k) st1).
  destruct (rounds f cfg world n (S k) st1) as [e2 s2]. simpl in *.
  rewrite actions_of_app. by apply Forall_app.
Qed.

(** The sleeps of one round: one when it completes, none when it raises. *)
Lemma round_sleeps f cfg compute st :
  count is_sleep (actions_of (round f cfg compute st).1)
  = match (round f cfg compute st).2 with Running _ => 1 | _ => 0 end.
Proof.
  pose proof (get_instances_no_loop_body f cfg compute (working_list st)) as Hquiet.
  destruct (round_cases f cfg compute st)
    as (lst & all & acts & last & sacts & Hres & Hprep & Hcases).
  rewrite Hres in Hquiet. simpl in Hquiet.
  pose proof (prep_logs all (last_status_stats st)) as Hlogs. rewrite Hprep in Hlogs.
  simpl in Hlogs.
  assert (count is_sleep (acts ++ sacts) = 0) as Hzero.
  { apply count_none, Forall_app. split.
    - eapply Forall_impl; [exact Hquiet|].
      intros a Ha. apply of_loop_body_false in Ha. tauto.
    - destruct Hlogs as [->|[stats ->]]; by repeat constructor. }
  cbv zeta in Hcases.
  destruct Hcases as [[_ ->]|[(_ & _ & ->)|(_ & _ & ->)]]; simpl;
    rewrite count_actions_prefix, Hzero; try done.
  set (stopped := filter (λ i, inst_stopped i = true) (PyDict.values all)).
  change (actions_of [Act (Log DEBUG Preparing_tasks);
                      Act (Log DEBUG (Created_tasks (length stopped)));
                      Gather (start_instance compute <$> stopped);
                      Act (Log DEBUG Tasks_completed);
                      Act (Sleep (interval cfg))])
    with ([Log DEBUG Preparing_tasks; Log DEBUG (Created_tasks (length stopped))]
          ++ concat (start_instance compute <$> stopped)
          ++ [Log DEBUG Tasks_completed; Sleep (interval cfg)]).
  rewrite !count_app.
  rewrite (count_none is_sleep (concat _)) by (by apply tasks_Forall).
  done.
Qed.

(** X11. The trace of [n] iterations of the loop has one sleep for each
    completed iteration, each of the configured interval: [n] sleeps when
    all [n] iterations complete, fewer when one of them raises. *)
Theorem X11_one_sleep_per_completed_round
    (f : get_instances_func) (cfg : Config) (world : World) (n k : nat) (st : State) :
  let r := rounds f cfg world n k st in
  Forall (λ a, is_sleep a = true → a = Sleep (interval cfg)) (actions_of r.1)
  ∧ match r.2 with
    | Running _ => count is_sleep (actions_of r.1) = n
    | _ => count is_sleep (actions_of r.1) < n
    end.
Proof.
  cbv zeta. split.
  - apply rounds_trace_Forall; try done.
    intros compute lst.
    eapply Forall_impl; [apply get_instances_no_loop_body|].
    intros a Ha Hs. apply of_loop_body_false in Ha. destruct Ha as (_ & Ha & _).
    congruence.
  - revert k st. induction n as [|n IH]; intros k st; simpl; [done|].
    pose proof (round_sleeps f cfg (world k) st) as Hround.
    destruct (round f cfg (world k) st) as [e1 [st1| |]]; simpl in *; [|lia..].
    specialize (IH (S k) st1).
    destruct (rounds f cfg world n (S k) st1) as [e2 s2]. simpl in *.
    rewrite actions_of_app, count_app, Hround. destruct s2; lia.
Qed.

(** X10. With the folder selector the loop never touches
    [config.instances]: in any number of iterations it fetches no single
    instance, pops nothing, and every state it reaches has the working list
    it started with. *)
Theorem X10_folder_selector_leaves_the_list
    (cfg : Config) (world : World) (n k : nat) (st : State) :
  let r := rounds from_yc_folder cfg world n k st in
  Forall (λ a, is_fetch a = false ∧ is_pop a = false) (actions_of r.1)
  ∧ match r.2 with
    | Running st' => working_list st' = working_list st
    | _ => True
    end.
Proof.
  cbv zeta. split.
  - apply rounds_trace_Forall; try done.
    intros compute lst. simpl. by repeat constructor.
  - revert k st. induction n as [|n IH]; intros k st; simpl; [done|].
    destruct (round_cases from_yc_folder cfg (world k) st)
      as (lst & all & acts & last & sacts & Hres & Hprep & Hcases).
    assert (lst = working_list st) as ->.
    { unfold get_instances in Hres.
      destruct (get_instances_from_yc_folder (world k) cfg). by injection Hres. }
    cbv zeta in Hcases.
    destruct Hcases as [[_ ->]|[(_ & _ & ->)|(_ & _ & ->)]]; [|done|].
    + match goal with |- context [rounds _ _ _ n (S k) ?s] =>
        specialize (IH (S k) s); destruct (rounds from_yc_folder cfg world n (S k) s)
          as [e2 s2] end.
      simpl in *. by destruct s2.
    + match goal with |- context [rounds _ _ _ n (S k) ?s] =>
        specialize (IH (S k) s); destruct (rounds from_yc_folder cfg world n (S k) s)
          as [e2 s2] end.
      simpl in *. by destruct s2.
Qed.

(** ** The event loop over the life of the process *)

Lemma gathers_prefix (l : list action) (evs : list event) :
  count is_gather ((Act <$> l) ++ evs) = count is_gather evs.
Proof. by rewrite count_app, count_Act_gather. Qed.

(** A round gathers at most once; it gathers exactly when it leaves a
    loop it found open closed; on a closed loop it gathers nothing and can
    only raise [RuntimeError]. *)
Lemma round_gathers f cfg compute st :
  (loop_closed st = true →
   count is_gather (round f cfg compute st).1 = 0
   ∧ match (round f cfg compute st).2 with
     | Running st' => loop_closed st' = true
     | Raised e => e = RuntimeError
     | Exited _ => False
     end)
  ∧ (loop_closed st = false →
     ∃ st', (round f cfg compute st).2 = Running st'
            ∧ count is_gather (round f cfg compute st).1
              = if loop_closed st' then 1 else 0).
Proof.
  destruct (round_cases f cfg compute st)
    as (lst & all & acts & last & sacts & Hres & Hprep & Hcases).
  cbv zeta in Hcases.
  destruct Hcases as [[_ ->]|[(_ & Hc & ->)|(_ & Hc & ->)]]; simpl;
    rewrite gathers_prefix; (split; intros Hst); try congruence.
  - done.
  - eexists. split; [done|]. simpl. by rewrite Hst.
  - done.
  - eexists. split; done.
Qed.

Lemma rounds_closed_loop f cfg (world : World) n k st :
  loop_closed st = true →
  count is_gather (rounds f cfg world n k st).1 = 0
  ∧ match (rounds f cfg world n k st).2 with
    | Running _ => True
    | Raised e => e = RuntimeError
    | Exited _ => False
    end.
Proof.
  revert k st. induction n as [|n IH]; intros k st Hst; simpl; [done|].
  destruct (round_gathers f cfg (world k) st) as [Hclosed _].
  destruct (Hclosed Hst) as [Hzero Hnext].
  destruct (round f cfg (world k) st) as [e1 [st1| |]]; simpl in *; [|done..].
  destruct (IH (S k) st1 Hnext) as [Hrest Hs].
  destruct (rounds f cfg world n (S k) st1) as [e2 s2]. simpl in *.
  rewrite count_app, Hzero, Hrest. done.
Qed.

Lemma rounds_open_loop f cfg (world : World) n k st :
  loop_closed st = false →
  count is_gather (rounds f cfg world n k st).1 ≤ 1
  ∧ match (rounds f cfg world n k st).2 with
    | Running _ => True
    | Raised e => e = RuntimeError ∧ count is_gather (rounds f cfg world n k st).1 = 1
    | Exited _ => False
    end.
Proof.
  revert k st. induction n as [|n IH]; intros k st Hst; simpl.
  { split; [|done]. unfold count. simpl. lia. }
  destruct (round_gathers f cfg (world k) st) as [_ Hopen].
  destruct (Hopen Hst) as (st1 & Hs1 & Hcount).
  destruct (round f cfg (world k) st) as [e1 s1]. simpl in Hs1, Hcount. subst s1.
  destruct (loop_closed st1) eqn:Hst1.
  - destruct (rounds_closed_loop f cfg world n (S k) st1 Hst1) as [Hrest Hs].
    destruct (rounds f cfg world n (S k) st1) as [e2 s2]. simpl in *.
    rewrite count_app, Hcount, Hrest. split; [lia|].
    destruct s2; try done; (split; [done|lia]).
  - destruct (IH (S k) st1 Hst1) as [Hrest Hs].
    destruct (rounds f cfg world n (S k) st1) as [e2 s2]. simpl in *.
    rewrite count_app, Hcount. split; [lia|].
    destruct s2; try done; destruct Hs as [-> Hs]; (split; [done|lia]).
Qed.

(** The trace and status of [main] once the startup has chosen a selector
    and the initial TargetSet is not empty. *)
Lemma main_watching cfg world n f acts lst init racts :
  startup cfg = (acts, Some f) →
  get_instances f cfg (world 0) (instances cfg) = (lst, init, racts) →
  init ≠ [] →
  ∃ l, main cfg world n
       = ((Act <$> l)
            ++ (rounds f cfg world n 1
                  {| working_list := lst; last_status_stats := EmptyString;
                     loop_closed := false |}).1,
          (rounds f cfg world n 1
             {| working_list := lst; last_status_stats := EmptyString;
                loop_closed := false |}).2).
Proof.
  intros Hstart Hres Hne. unfold main. rewrite Hstart. simpl. rewrite Hres.
  destruct init as [|x init]; [done|]. simpl.
  destruct (rounds f cfg world n 1 _) as [evs s]. eexists. reflexivity.
Qed.

(** The three ways [main] can go. *)
Lemma main_cases cfg world n :
  (startup cfg).2 = None ∧ main cfg world n = (Act <$> (startup cfg).1, Raised TypeError)
  ∨ (∃ f acts lst racts,
       startup cfg = (acts, Some f)
       ∧ get_instances f cfg (world 0) (instances cfg) = (lst, [], racts)
       ∧ main cfg world n
         = (Act <$> (acts ++ racts ++ [Log ERROR Instance_list_empty]), Exited 0))
  ∨ (∃ f l lst,
       (startup cfg).2 = Some f
       ∧ main cfg world n
         = ((Act <$> l)
              ++ (rounds f cfg world n 1
                    {| working_list := lst; last_status_stats := EmptyString;
                       loop_closed := false |}).1,
            (rounds f cfg world n 1
               {| working_list := lst; last_status_stats := EmptyString;
                  loop_closed := false |}).2)).
Proof.
  destruct (startup cfg) as [acts [f|]] eqn:Hstart.
  - destruct (get_instances f cfg (world 0) (instances cfg)) as [[lst init] racts] eqn:Hres.
    destruct init as [|x init].
    + right. left. exists f, acts, lst, racts. split; [done|]. split; [done|].
      unfold main. rewrite Hstart. simpl. by rewrite Hres.
    + right. right.
      destruct (main_watching cfg world n f acts lst (x :: init) racts Hstart Hres)
        as [l Hmain]; [done|].
      exists f, l, lst. by split.
  - left. split; [done|]. unfold main. by rewrite Hstart.
Qed.

(** X12. In the whole life of the process tasks are gathered at most once;
    the only exception the loop raises is [RuntimeError], and when [main]
    ends on it exactly one gather has come before. *)
Theorem X12_at_most_one_dispatch_per_lifetime
    (cfg : Config) (world : World) (n : nat) :
  count is_gather (main cfg world n).1 ≤ 1
  ∧ ((main cfg world n).2 = Raised RuntimeError →
     count is_gather (main cfg world n).1 = 1).
Proof.
  destruct (main_cases cfg world n)
    as [[_ ->]|[(f & acts & lst & racts & _ & _ & ->)|(f & l & lst & _ & ->)]];
    simpl.
  - rewrite count_Act_gather. split; [lia|done].
  - rewrite count_Act_gather. split; [lia|done].
  - rewrite gathers_prefix.
    destruct (rounds_open_loop f cfg world n 1
                {| working_list := lst; last_status_stats := EmptyString;
                   loop_closed := false |} eq_refl) as [Hle Hs].
    split; [done|]. intros Hr. rewrite Hr in Hs. apply Hs.
Qed.

(** X13. When no identifier is configured, the go value is unset or empty
    and the no-go value is [None], [main] raises [TypeError] at its startup
    line (which concatenates a string and [None]): it has then logged its
    start line only, has made no call to the cloud and runs no iteration. *)
Theorem X13_startup_type_error (cfg : Config) (world : World) (n : nat) :
  instances cfg = [] →
  truthy (label_go_value cfg) = false →
  label_no_go_value cfg = None →
  main cfg world n = ([Act (Log INFO Watchdog_started)], Raised TypeError).
Proof.
  intros Hinst Hgo Hnogo. unfold main, startup.
  by rewrite Hinst, Hgo, Hnogo.
Qed.

Lemma X13_startup_type_error_witness :
  main (Scenario.cfg [] (Some EmptyString) None) (λ _, Scenario.labelled_folder) 4
  = ([Act (Log INFO Watchdog_started)], Raised TypeError).
Proof.
  apply (X13_startup_type_error (Scenario.cfg [] (Some EmptyString) None)
           (λ _, Scenario.labelled_folder) 4); reflexivity.
Defined.

(** X14. [main] exits by itself only through the check of the initial
    TargetSet: whenever it exits, the code is 0, the startup had chosen a
    selector, the initial resolution was empty and no iteration of the loop
    ran.  After a non-empty initial resolution it never exits. *)
Theorem X14_exit_only_on_empty_initial_set
    (cfg : Config) (world : World) (n : nat) (code : Z) :
  (main cfg world n).2 = Exited code →
  code = 0%Z
  ∧ main cfg world n = main cfg world 0
  ∧ ∃ f acts lst racts,
      startup cfg = (acts, Some f)
      ∧ get_instances f cfg (world 0) (instances cfg) = (lst, [], racts).
Proof.
  intros Hexit.
  destruct (main_cases cfg world n)
    as [[_ Hm]|[(f & acts & lst & racts & Hs & Hres & Hm)|(f & l & lst & _ & Hm)]];
    rewrite Hm in Hexit; simpl in Hexit.
  - done.
  - injection Hexit as <-. split; [done|]. split; [|by eauto 10].
    rewrite Hm. unfold main. rewrite Hs. simpl. by rewrite Hres.
  - destruct (rounds_open_loop f cfg world n 1
                {| working_list := lst; last_status_stats := EmptyString;
                   loop_closed := false |} eq_refl) as [_ Hr].
    by rewrite Hexit in Hr.
Qed.

Lemma X14_exit_only_on_empty_initial_set_witness :
  (main (Scenario.cfg ["A"] None None) (λ _, Scenario.all_stopped_but "A") 3).2
  = Exited 0
  ∧ main (Scenario.cfg ["A"] None None) (λ _, Scenario.all_stopped_but "A") 3
    = main (Scenario.cfg ["A"] None None) (λ _, Scenario.all_stopped_but "A") 0.
Proof.
  split; [reflexivity|].
  apply (X14_exit_only_on_empty_initial_set (Scenario.cfg ["A"] None None)
           (λ _, Scenario.all_stopped_but "A") 3 0).
  reflexivity.
Defined.

(** ** The [Config] class *)



(** X15. [__verify] lets a configuration through exactly when [auth_type]
    is one of the four known strings, a token is present if it is [iam]
    and a key path is present if it is [sa]; it never fails on the string
    containment test; and it asks no token of [oauth]. *)
Theorem X15_verify_accepts (auth_type token sa_filepath : pyval) :
  (verify auth_type token sa_filepath = None
   ↔ ∃ s, auth_type = PStr s
          ∧ s ∈ ["oauth"; "iam"; "inside-vm"; "sa"]
          ∧ (s = "iam" → token ≠ PNone)
          ∧ (s = "sa" → sa_filepath ≠ PNone))
  ∧ verify auth_type token sa_filepath ≠ Some Type_error
  ∧ verify (PStr "oauth") PNone sa_filepath = None.
Proof.
  split; [|split; [|done]].
  - split.
    + unfold verify. destruct auth_type as [| | |s|]; try done. simpl.
      case_bool_decide as Hs; [|done]. simpl. intros Hv.
      exists s. split; [done|]. split; [done|].
      rewrite !elem_of_cons, elem_of_nil in Hs.
      destruct Hs as [->|[->|[->|[->|[]]]]]; simpl in Hv;
        (split; [intros ?|intros ?]); try done.
      * by destruct token.
      * by destruct sa_filepath.
    + intros (s & -> & Hs & Ht & Hf).
      rewrite !elem_of_cons, elem_of_nil in Hs.
      destruct Hs as [->|[->|[->|[->|[]]]]]; unfold verify; simpl; try done.
      * destruct token; try done. by destruct Ht.
      * destruct sa_filepath; try done. by destruct Hf.
  - unfold verify. destruct auth_type as [| | |s|]; try done. simpl.
    case_bool_decide; [|done]. simpl.
    destruct (_ && is_none token); [done|]. by destruct (_ && is_none sa_filepath).
Qed.

Section Config_facts.
Variables lower upper : string → string.





Lemma set_items_error attrs items e :
  set_items lower upper attrs items = inl e → e = Attribute_error.
Proof.
  revert attrs. induction items as [|[key value] items IH]; intros attrs; simpl; [done|].
  destruct (decide (lower key = "loglevel")).
  - destruct value; try (by intros [= <-]). apply IH.
  - apply IH.
Qed.


End Config_facts.








(** ** The [--instances] argument *)

Lemma split_on_nonempty sep s : split_on sep s ≠ [].
Proof. destruct s as [|c s]; simpl; [done|]. case_decide; [done|]. by case_match. Qed.

Lemma join_cons_char sep c piece pieces :
  PyRepr.join sep (String c piece :: pieces)
  = String c (PyRepr.join sep (piece :: pieces)).
Proof. by destruct pieces. Qed.

Lemma join_split sep s :
  PyRepr.join (String sep EmptyString) (split_on sep s) = s.
Proof.
  induction s as [|c s IH]; [done|]. simpl.
  pose proof (split_on_nonempty sep s) as Hne.
  destruct (split_on sep s) as [|piece pieces]; [done|].
  case_decide as Hc.
  - subst c. change (PyRepr.join (String sep EmptyString) (EmptyString :: piece :: pieces))
      with (String sep (PyRepr.join (String sep EmptyString) (piece :: pieces))).
    by rewrite IH.
  - by rewrite join_cons_char, IH.
Qed.

Lemma split_pieces sep s :
  Forall (λ piece, PyRepr.contains sep piece = false) (split_on sep s).
Proof.
  induction s as [|c s IH]; simpl.
  { apply Forall_cons. split; [done|constructor]. }
  case_decide as Hc.
  { apply Forall_cons. by split. }
  destruct (split_on sep s) as [|piece pieces].
  - apply Forall_cons. split; [|constructor].
    simpl. by rewrite decide_False by congruence.
  - apply Forall_cons in IH as [Hp Hrest]. apply Forall_cons. split; [|done].
    simpl. by rewrite decide_False by congruence.
Qed.

(** X19. The identifiers taken from [--instances]: none when the argument
    is absent or empty; otherwise at least one, none of them containing a
    comma, and joined by commas they give the argument back (so an argument
    with a trailing or doubled comma yields an empty identifier). *)
Theorem X19_instances_argument (a : option string) :
  list_truthy (instances_of_arg a) = truthy a
  ∧ Forall (λ piece, PyRepr.contains comma piece = false) (instances_of_arg a)
  ∧ (truthy a = true →
     PyRepr.join (String comma EmptyString) (instances_of_arg a)
     = default EmptyString a).
Proof.
  unfold instances_of_arg. destruct (truthy a) eqn:Ha.
  - split; [|split].
    + pose proof (split_on_nonempty comma (default EmptyString a)).
      by destruct (split_on comma (default EmptyString a)).
    + apply split_pieces.
    + intros _. apply join_split.
  - split; [done|]. split; [constructor|done].
Qed.

(** ** Choice of the client *)

(** X20. A configuration that passed [__verify] always gets a client: one
    of the four branches on [auth_type] applies.  A client built for [iam]
    carries a token that is not [None], and one built for [sa] was checked
    to have a key path; for [oauth] the token may be [None]. *)
Theorem X20_verified_configuration_gets_a_client (attrs : gmap string pyval) :
  verify (getattr attrs "auth_type") (getattr attrs "token")
         (getattr attrs "sa_filepath") = None →
  ∃ client,
    select_client attrs = Some client
    ∧ (∀ t, client = Iam_token t → t ≠ PNone)
    ∧ (∀ key, client = Service_account_key key → getattr attrs "sa_filepath" ≠ PNone).
Proof.
  intros (s & Hauth & Hs & Htoken & Hsa)%X15_verify_accepts.
  unfold select_client. rewrite Hauth. simpl.
  rewrite !elem_of_cons, elem_of_nil in Hs.
  destruct Hs as [->|[->|[->|[->|[]]]]]; simpl; eexists; (split; [reflexivity|]);
    split; intros ? [= <-] || intros ? [=]; auto.
Qed.

Lemma X20_verified_configuration_gets_a_client_witness :
  verify (getattr ConfigScenario.oauth_config "auth_type")
         (getattr ConfigScenario.oauth_config "token")
         (getattr ConfigScenario.oauth_config "sa_filepath") = None
  ∧ ∃ client, select_client ConfigScenario.oauth_config = Some client.
Proof.
  assert (getattr ConfigScenario.oauth_config "auth_type" = PStr "oauth") as Hauth.
  { unfold getattr, ConfigScenario.oauth_config.
    rewrite !lookup_insert_ne by done. by rewrite lookup_insert_eq. }
  assert (verify (getattr ConfigScenario.oauth_config "auth_type")
                 (getattr ConfigScenario.oauth_config "token")
                 (getattr ConfigScenario.oauth_config "sa_filepath") = None) as Hv.
  { rewrite Hauth. reflexivity. }
  split; [exact Hv|].
  destruct (X20_verified_configuration_gets_a_client ConfigScenario.oauth_config Hv)
    as (client & Hc & _).
  by exists client.
Defined.
